(** * Session status tracking of the claude-code-ui daemon

    A shallow embedding of [packages/daemon/src/status-machine.ts],
    [status.ts], the parts of [types.ts] they use, and the signal and
    change handlers of [watcher.ts], with the properties the daemon's
    specification states about them.

    Conventions.
    - JavaScript strings are [string]; arrays that are never mutated in
      place are [list]; [Map<string, _>] is [gmap string _].
    - Numbers that hold millisecond instants or counters are [Z].  The
      message counter only grows by one per replayed entry (lemma
      [replay_messageCount_bound]), so it stays far below 2^53 and the
      double-precision increment of the source is exact.
    - [Date.now()] is an explicit argument [now]; [new Date(s).getTime()] is
      a section variable [parseDate], whose result [None] stands for [NaN]. *)

From Stdlib Require Import ZArith String Ascii List Bool Lia.
From stdpp Require Import base option list strings gmap.

Local Open Scope string_scope.
Local Open Scope Z_scope.

(* ===================================================================== *)
(** ** types.ts *)
(* ===================================================================== *)

Module Types.

(** [UserContentBlock = TextBlock | ToolResultBlock | ImageBlock] *)
Inductive UserContentBlock : Type :=
| UTextBlock (text : string)
| UToolResultBlock (tool_use_id : string) (content : string)
| UImageBlock (media_type : string) (data : string).

(** [AssistantContentBlock = TextBlock | ToolUseBlock | ThinkingBlock];
    the [input] record of a tool call is never inspected and is left out. *)
Inductive AssistantContentBlock : Type :=
| ATextBlock (text : string)
| AToolUseBlock (id : string) (name : string)
| AThinkingBlock (thinking : string) (signature : string).

(** [content: string | UserContentBlock[]] *)
Inductive UserContent : Type :=
| ContentString (s : string)
| ContentArray (blocks : list UserContentBlock).

(** The tagged union [LogEntry], with the fields status derivation reads. *)
Inductive LogEntry : Type :=
| UserEntry (timestamp : string) (content : UserContent)
| AssistantEntry (timestamp : string) (content : list AssistantContentBlock)
| SystemEntry (subtype : string) (timestamp : string)
| QueueOperationEntry (timestamp : string)
| FileHistorySnapshotEntry.

Inductive SessionStatus : Type := st_working | st_waiting | st_idle.

Inductive Role : Type := role_user | role_assistant.

Record StatusResult : Type := mkStatusResult {
  status : SessionStatus;
  lastRole : Role;
  hasPendingToolUse : bool;
  lastActivityAt : string;
  messageCount : Z
}.

Record SessionMetadata : Type := mkSessionMetadata {
  md_sessionId : string;
  md_cwd : string;
  md_gitBranch : option string;
  md_originalPrompt : string;
  md_startedAt : string
}.

Definition SessionStatus_eqb (a b : SessionStatus) : bool :=
  match a, b with
  | st_working, st_working | st_waiting, st_waiting | st_idle, st_idle => true
  | _, _ => false
  end.

Definition Role_eqb (a b : Role) : bool :=
  match a, b with
  | role_user, role_user | role_assistant, role_assistant => true
  | _, _ => false
  end.

End Types.

(* ===================================================================== *)
(** ** status-machine.ts *)
(* ===================================================================== *)

Module StatusMachine.
Import Types.

Record StatusContext : Type := mkStatusContext {
  lastActivityAt : string;
  messageCount : Z;
  hasPendingToolUse : bool;
  pendingToolIds : list string
}.

Inductive StatusEvent : Type :=
| USER_PROMPT (timestamp : string)
| TOOL_RESULT (timestamp : string) (toolUseIds : list string)
| ASSISTANT_STREAMING (timestamp : string)
| ASSISTANT_TOOL_USE (timestamp : string) (toolUseIds : list string)
| TURN_END (timestamp : string)
| APPROVAL_TIMEOUT
| STALE_TIMEOUT.

Inductive StatusState : Type :=
| working
| waiting_for_approval
| waiting_for_input.

(** The [context] factory of the machine. *)
Definition initialContext : StatusContext :=
  {| lastActivityAt := ""; messageCount := 0;
     hasPendingToolUse := false; pendingToolIds := [] |}.

(** [arr.includes(id)] on an array of strings. *)
Definition includes (arr : list string) (id : string) : bool :=
  existsb (String.eqb id) arr.

(** One entry of an [on: { ... }] block: an optional [target] and the
    [actions] callback, which assigns to fields of the context. *)
Record Transition : Type := mkTransition {
  target : option StatusState;
  actions : StatusContext -> StatusContext
}.

(** The [actions] bodies shared by [working] and [waiting_for_approval]
    for [TOOL_RESULT]. *)
Definition resolveTools (timestamp : string) (toolUseIds : list string)
    (context : StatusContext) : StatusContext :=
  let remaining :=
    List.filter (fun id => negb (includes toolUseIds id)) (pendingToolIds context) in
  {| lastActivityAt := timestamp;
     messageCount := messageCount context + 1;
     hasPendingToolUse := (0 <? Z.of_nat (length remaining));
     pendingToolIds := remaining |}.

(** [states.<state>.on.<event>]; [None] when the state has no handler for
    the event, in which case the actor drops the event. *)
Definition statusMachine (state : StatusState) (event : StatusEvent)
    : option Transition :=
  match state, event with
  | working, USER_PROMPT timestamp =>
      Some {| target := None;
              actions := fun context =>
                {| lastActivityAt := timestamp;
                   messageCount := messageCount context + 1;
                   hasPendingToolUse := false;
                   pendingToolIds := [] |} |}
  | working, ASSISTANT_STREAMING timestamp =>
      Some {| target := None;
              actions := fun context =>
                {| lastActivityAt := timestamp;
                   messageCount := messageCount context;
                   hasPendingToolUse := hasPendingToolUse context;
                   pendingToolIds := pendingToolIds context |} |}
  | working, ASSISTANT_TOOL_USE timestamp toolUseIds =>
      Some {| target := None;
              actions := fun context =>
                {| lastActivityAt := timestamp;
                   messageCount := messageCount context + 1;
                   hasPendingToolUse := true;
                   pendingToolIds := toolUseIds |} |}
  | working, TOOL_RESULT timestamp toolUseIds =>
      Some {| target := None; actions := resolveTools timestamp toolUseIds |}
  | working, TURN_END timestamp =>
      Some {| target := Some waiting_for_input;
              actions := fun context =>
                {| lastActivityAt := timestamp;
                   messageCount := messageCount context;
                   hasPendingToolUse := false;
                   pendingToolIds := [] |} |}
  | working, APPROVAL_TIMEOUT =>
      Some {| target := Some waiting_for_approval;
              actions := fun context => context |}
  | working, STALE_TIMEOUT =>
      Some {| target := Some waiting_for_input;
              actions := fun context =>
                {| lastActivityAt := lastActivityAt context;
                   messageCount := messageCount context;
                   hasPendingToolUse := false;
                   pendingToolIds := pendingToolIds context |} |}
  | waiting_for_approval, TOOL_RESULT timestamp toolUseIds =>
      Some {| target := Some working; actions := resolveTools timestamp toolUseIds |}
  | waiting_for_input, USER_PROMPT timestamp =>
      Some {| target := Some working;
              actions := fun context =>
                {| lastActivityAt := timestamp;
                   messageCount := messageCount context + 1;
                   hasPendingToolUse := hasPendingToolUse context;
                   pendingToolIds := pendingToolIds context |} |}
  | waiting_for_input, ASSISTANT_STREAMING timestamp =>
      Some {| target := None;
              actions := fun context =>
                {| lastActivityAt := timestamp;
                   messageCount := messageCount context;
                   hasPendingToolUse := hasPendingToolUse context;
                   pendingToolIds := pendingToolIds context |} |}
  | waiting_for_input, TURN_END timestamp =>
      Some {| target := None;
              actions := fun context =>
                {| lastActivityAt := timestamp;
                   messageCount := messageCount context;
                   hasPendingToolUse := hasPendingToolUse context;
                   pendingToolIds := pendingToolIds context |} |}
  | _, _ => None
  end.

(** A running actor: the state value of its snapshot and its context.
    The context object is created by the factory for this actor alone and
    is reachable only through it, so it is carried by value here; module
    [Store] below keeps it in a heap and shows the two views agree. *)
Definition Actor : Type := StatusState * StatusContext.

(** [createActor(statusMachine)] followed by [actor.start()]. *)
Definition createActor : Actor := (waiting_for_input, initialContext).

(** [actor.send(event)] *)
Definition send (actor : Actor) (event : StatusEvent) : Actor :=
  match statusMachine (fst actor) event with
  | Some t => (default (fst actor) (target t), actions t (snd actor))
  | None => actor
  end.

(** The fixed set built inside [logEntryToEvent]. *)
Definition autoApprovedTools : gset string :=
  list_to_set
    [ "Task"; "Read"; "Glob"; "Grep"; "WebSearch"; "WebFetch";
      "TodoWrite"; "AskUserQuestion"; "NotebookEdit"; "TaskOutput" ].

Definition isToolResult (b : UserContentBlock) : bool :=
  match b with UToolResultBlock _ _ => true | _ => false end.

Definition isText (b : UserContentBlock) : bool :=
  match b with UTextBlock _ => true | _ => false end.

(** [content.filter(b => b.type === "tool_result").map(b => b.tool_use_id)] *)
Definition tool_use_id (b : UserContentBlock) : string :=
  match b with UToolResultBlock id _ => id | _ => "" end.

Definition toolResultIds (content : list UserContentBlock) : list string :=
  map tool_use_id (List.filter isToolResult content).

(** The filter predicate
    [b.type === "tool_use" && !autoApprovedTools.has(b.name)]. *)
Definition needsApproval (b : AssistantContentBlock) : bool :=
  match b with
  | AToolUseBlock _ name => negb (bool_decide (name ∈ autoApprovedTools))
  | _ => false
  end.

(** [b.type === "tool_use" ? b.id : ""] *)
Definition toolUseId (b : AssistantContentBlock) : string :=
  match b with AToolUseBlock id _ => id | _ => "" end.

Definition logEntryToEvent (entry : LogEntry) : option StatusEvent :=
  match entry with
  | UserEntry timestamp content =>
      match content with
      | ContentString _ => Some (USER_PROMPT timestamp)
      | ContentArray blocks =>
          let toolUseIds := toolResultIds blocks in
          if (0 <? Z.of_nat (length toolUseIds)) then
            Some (TOOL_RESULT timestamp toolUseIds)
          else if existsb isText blocks then
            Some (USER_PROMPT timestamp)
          else None
      end
  | AssistantEntry timestamp content =>
      let toolUseBlocks := List.filter needsApproval content in
      if (0 <? Z.of_nat (length toolUseBlocks)) then
        Some (ASSISTANT_TOOL_USE timestamp (map toolUseId toolUseBlocks))
      else Some (ASSISTANT_STREAMING timestamp)
  | SystemEntry subtype timestamp =>
      if String.eqb subtype "turn_duration" || String.eqb subtype "stop_hook_summary"
      then Some (TURN_END timestamp)
      else None
  | _ => None
  end.

(** *** deriveStatusFromMachine *)

Definition APPROVAL_TIMEOUT_MS : Z := 15 * 1000.
Definition STALE_TIMEOUT_MS : Z := 60 * 1000.

(** [x > y] where [x] may be [NaN]: every comparison with [NaN] is false. *)
Definition exceeds (x : option Z) (y : Z) : bool :=
  match x with Some v => y <? v | None => false end.

Definition isWorking (s : StatusState) : bool :=
  match s with working => true | _ => false end.

Section Derive.
(** [new Date(s).getTime()]: the instant in milliseconds, or [None] for
    an invalid date. *)
Variable parseDate : string -> option Z.

(** [context.lastActivityAt ? new Date(context.lastActivityAt).getTime() : 0];
    the empty string is the only falsy string. *)
Definition lastActivityTime (context : StatusContext) : option Z :=
  if String.eqb (lastActivityAt context) "" then Some 0
  else parseDate (lastActivityAt context).

(** [now - lastActivityTime] *)
Definition timeSinceActivity (now : Z) (context : StatusContext) : option Z :=
  match lastActivityTime context with
  | Some t => Some (now - t)
  | None => None
  end.

(** The body of the [for (const entry of entries)] loop. *)
Definition feed (actor : Actor) (entry : LogEntry) : Actor :=
  match logEntryToEvent entry with
  | Some event => send actor event
  | None => actor
  end.

Definition replay (entries : list LogEntry) (actor : Actor) : Actor :=
  fold_left feed entries actor.

(** The [if ... else if ...] after the loop: the synthetic event that is
    sent, if any. *)
Definition timeoutEvent (now : Z) (snapshot : Actor) : option StatusEvent :=
  let stateValue := fst snapshot in
  let context := snd snapshot in
  let elapsed := timeSinceActivity now context in
  if isWorking stateValue && hasPendingToolUse context
     && exceeds elapsed APPROVAL_TIMEOUT_MS
  then Some APPROVAL_TIMEOUT
  else if isWorking stateValue && negb (hasPendingToolUse context)
          && exceeds elapsed STALE_TIMEOUT_MS
  then Some STALE_TIMEOUT
  else None.

Definition deriveStatusFromMachine (now : Z) (entries : list LogEntry)
    : StatusState * StatusContext :=
  let actor := replay entries createActor in
  match timeoutEvent now actor with
  | Some event => send actor event
  | None => actor
  end.
End Derive.

Definition machineStatusToResult (machineStatus : StatusState)
    (context : StatusContext) : StatusResult :=
  {| Types.status := if isWorking machineStatus then st_working else st_waiting;
     Types.lastRole := role_assistant;
     Types.hasPendingToolUse := hasPendingToolUse context;
     Types.lastActivityAt := lastActivityAt context;
     Types.messageCount := messageCount context |}.

End StatusMachine.

(* ===================================================================== *)
(** ** status.ts *)
(* ===================================================================== *)

Module Status.
Import Types.

Definition deriveStatus (parseDate : string -> option Z) (now : Z)
    (entries : list LogEntry) : StatusResult :=
  let r := StatusMachine.deriveStatusFromMachine parseDate now entries in
  StatusMachine.machineStatusToResult (fst r) (snd r).

(** [a !== b] on booleans. *)
Definition bool_neq (a b : bool) : bool := negb (Bool.eqb a b).

Definition statusChanged (prev : option StatusResult) (next : StatusResult) : bool :=
  match prev with
  | None => true
  | Some prev =>
      negb (SessionStatus_eqb (status prev) (status next))
      || negb (Role_eqb (lastRole prev) (lastRole next))
      || bool_neq (hasPendingToolUse prev) (hasPendingToolUse next)
  end.

Definition getStatusKey (result : StatusResult) : string :=
  match status result with
  | st_waiting => if hasPendingToolUse result then "waiting:tool" else "waiting"
  | st_working => "working"
  | st_idle => "idle"
  end.

End Status.

(* ===================================================================== *)
(** ** The actor with its context object in a store

    The [actions] of the machine assign to the fields of the context object
    in place, and every snapshot of an actor refers to that one object.
    Here the objects live in a heap and a snapshot holds a reference; the
    context factory allocates a new object for each actor. *)
(* ===================================================================== *)

Module Store.
Import Types StatusMachine.

Definition ref : Type := nat.

Global Instance StatusContext_inhabited : Inhabited StatusContext :=
  populate initialContext.

(** [actor.getSnapshot()]: the state value and the context reference. *)
Record Snapshot : Type := mkSnapshot {
  value : StatusState;
  context : ref
}.

(** [createActor(statusMachine)]; [actor.start()]: the factory
    [context: () => ({...})] runs once per actor. *)
Definition createActor (h : gmap ref StatusContext)
    : Snapshot * gmap ref StatusContext :=
  let r := fresh (dom h) in
  ({| value := waiting_for_input; context := r |}, <[r := initialContext]> h).

(** [actor.send(event)]: the action mutates the object behind the
    reference; a state without a handler for the event ignores it. *)
Definition send (a : Snapshot) (event : StatusEvent) (h : gmap ref StatusContext)
    : Snapshot * gmap ref StatusContext :=
  match statusMachine (value a) event with
  | Some t =>
      ({| value := default (value a) (target t); context := context a |},
       alter (actions t) (context a) h)
  | None => (a, h)
  end.

Definition feed (ah : Snapshot * gmap ref StatusContext) (entry : LogEntry)
    : Snapshot * gmap ref StatusContext :=
  match logEntryToEvent entry with
  | Some event => send (fst ah) event (snd ah)
  | None => ah
  end.

Section Derive.
Variable parseDate : string -> option Z.

(** Returns [{ status, context }], where [context] is the reference held
    by the final snapshot, and the heap the call leaves behind. *)
Definition deriveStatusFromMachine (now : Z) (entries : list LogEntry)
    (h : gmap ref StatusContext)
    : (StatusState * ref) * gmap ref StatusContext :=
  let ah := fold_left feed entries (createActor h) in
  let snapshot := fst ah in
  let h1 := snd ah in
  let final :=
    match timeoutEvent parseDate now (value snapshot, h1 !!! context snapshot) with
    | Some event => send snapshot event h1
    | None => (snapshot, h1)
    end in
  ((value (fst final), context (fst final)), snd final).
End Derive.

End Store.

(* ===================================================================== *)
(** ** An instance of the date parser

    A reader of the 24-character form that [Date.prototype.toISOString]
    writes, [YYYY-MM-DDTHH:mm:ss.sssZ], which is the form of the log
    timestamps; it rejects every other string.  It instantiates [parseDate]
    in the examples only; the theorems hold for any parser. *)
(* ===================================================================== *)

Module IsoDate.

Definition digit (a : ascii) : option Z :=
  let n := Z.of_N (N_of_ascii a) - 48 in
  if (0 <=? n) && (n <=? 9) then Some n else None.

Fixpoint number (acc : Z) (ds : list ascii) : option Z :=
  match ds with
  | [] => Some acc
  | d :: ds => match digit d with
               | Some n => number (10 * acc + n) ds
               | None => None
               end
  end.

Definition isLeap (y : Z) : bool :=
  ((y mod 4 =? 0) && negb (y mod 100 =? 0)) || (y mod 400 =? 0).

Definition daysInMonth (y m : Z) : Z :=
  if m =? 2 then (if isLeap y then 29 else 28)
  else if (m =? 4) || (m =? 6) || (m =? 9) || (m =? 11) then 30 else 31.

(** Days from 1970-01-01 to the civil date [y-m-d]. *)
Definition daysFromCivil (y m d : Z) : Z :=
  let y' := if m <=? 2 then y - 1 else y in
  let era := y' / 400 in
  let yoe := y' - era * 400 in
  let mp := (m + 9) mod 12 in
  let doy := (153 * mp + 2) / 5 + d - 1 in
  let doe := yoe * 365 + yoe / 4 - yoe / 100 + doy in
  era * 146097 + doe - 719468.

Definition parse (s : string) : option Z :=
  match list_ascii_of_string s with
  | [y1; y2; y3; y4; "-"; mo1; mo2; "-"; d1; d2; "T";
     h1; h2; ":"; mi1; mi2; ":"; s1; s2; "."; f1; f2; f3; "Z"]%char =>
      match number 0 [y1; y2; y3; y4], number 0 [mo1; mo2], number 0 [d1; d2],
            number 0 [h1; h2], number 0 [mi1; mi2], number 0 [s1; s2],
            number 0 [f1; f2; f3] with
      | Some y, Some mo, Some d, Some h, Some mi, Some sec, Some ms =>
          if (1 <=? mo) && (mo <=? 12) && (1 <=? d) && (d <=? daysInMonth y mo)
             && (h <=? 23) && (mi <=? 59) && (sec <=? 59)
          then Some ((((daysFromCivil y mo d * 24 + h) * 60 + mi) * 60 + sec) * 1000 + ms)
          else None
      | _, _, _, _, _, _, _ => None
      end
  | _ => None
  end.

End IsoDate.

(* ===================================================================== *)
(** ** watcher.ts *)
(* ===================================================================== *)

Module Watcher.
Import Types.

Record PendingPermission : Type := mkPendingPermission {
  pp_session_id : string;
  tool_name : string;
  pending_since : string
}.

Record StopSignal : Type := mkStopSignal {
  ss_session_id : string;
  stopped_at : string
}.

Record SessionEndSignal : Type := mkSessionEndSignal {
  se_session_id : string;
  ended_at : string
}.

(** Optional fields ([?:]) are options; [string | null] is an option. *)
Record SessionState : Type := mkSessionState {
  sessionId : string;
  filepath : string;
  encodedDir : string;
  cwd : string;
  gitBranch : option string;
  originalPrompt : string;
  startedAt : string;
  status : StatusResult;
  entries : list LogEntry;
  bytePosition : Z;
  gitRepoUrl : option string;
  gitRepoId : option string;
  branchChanged : option bool;
  pendingPermission : option PendingPermission;
  hasStopSignal : option bool;
  hasEndedSignal : option bool
}.

Inductive SessionEventType : Type := created | updated | deleted.

Record SessionEvent : Type := mkSessionEvent {
  type : SessionEventType;
  session : SessionState;
  previousStatus : option StatusResult
}.

Inductive SignalType : Type := Permission | Stop | Ended.

(** What a handler does besides updating the maps, in program order. *)
Inductive Effect : Type :=
| EmitSession (event : SessionEvent)
| EmitError (code : string)
| UnlinkSignal (sessionId : string) (kind : SignalType).

(** The fields of the [SessionWatcher] instance that the handlers touch,
    and the trace of their effects. *)
Record SessionWatcher : Type := mkSessionWatcher {
  sessions : gmap string SessionState;
  pendingPermissions : gmap string PendingPermission;
  stopSignals : gmap string StopSignal;
  endedSignals : gmap string SessionEndSignal;
  effects : list Effect
}.

Definition empty : SessionWatcher :=
  {| sessions := ∅; pendingPermissions := ∅; stopSignals := ∅;
     endedSignals := ∅; effects := [] |}.

(** [{ ...s, status: st, hasPendingToolUse: p }] *)
Definition overrideStatus (s : StatusResult) (st : SessionStatus) (p : bool)
    : StatusResult :=
  {| Types.status := st;
     lastRole := lastRole s;
     hasPendingToolUse := p;
     lastActivityAt := lastActivityAt s;
     messageCount := messageCount s |}.

(** *** handleSignalFile

    [parseSignalFilename] gives the session id and the kind; [readFile]
    and [JSON.parse] give the record, cast to the type of that kind.  A
    signal file as the handler sees it is therefore the kind, the id and
    the record, with [None] for the record when reading or parsing threw
    (the [catch] branch, which ignores the file). *)
Inductive SignalFile : Type :=
| PermissionFile (sessionId : string) (data : option PendingPermission)
| StopFile (sessionId : string) (data : option StopSignal)
| EndedFile (sessionId : string) (data : option SessionEndSignal).

(** The assignments a signal handler makes to a session object: its
    [status], [pendingPermission], [hasStopSignal] and [hasEndedSignal];
    all other fields keep their values. *)
Definition assignSignalFields (session : SessionState) (st : StatusResult)
    (pp : option PendingPermission) (stopFlag endedFlag : option bool)
    : SessionState :=
  {| sessionId := sessionId session; filepath := filepath session;
     encodedDir := encodedDir session; cwd := cwd session;
     gitBranch := gitBranch session;
     originalPrompt := originalPrompt session;
     startedAt := startedAt session;
     status := st;
     entries := entries session; bytePosition := bytePosition session;
     gitRepoUrl := gitRepoUrl session; gitRepoId := gitRepoId session;
     branchChanged := branchChanged session;
     pendingPermission := pp;
     hasStopSignal := stopFlag;
     hasEndedSignal := endedFlag |}.

(** [parsed = None]: the file name does not match
    [<session_id>.<permission|stop|ended>.json]. *)
Definition handleSignalFile (w : SessionWatcher) (parsed : option SignalFile)
    : SessionWatcher :=
  match parsed with
  | None => w
  | Some (PermissionFile _ None) | Some (StopFile _ None)
  | Some (EndedFile _ None) => w
  | Some (PermissionFile sid (Some perm)) =>
      let pendingPermissions' := <[sid := perm]> (pendingPermissions w) in
      match sessions w !! sid with
      | Some session =>
          let previousStatus := status session in
          let session' :=
            assignSignalFields session
              (overrideStatus (status session) st_waiting true)
              (Some perm) (hasStopSignal session) (hasEndedSignal session) in
          {| sessions := <[sid := session']> (sessions w);
             pendingPermissions := pendingPermissions';
             stopSignals := stopSignals w;
             endedSignals := endedSignals w;
             effects := effects w ++
               [EmitSession {| type := updated; session := session';
                               previousStatus := Some previousStatus |}] |}
      | None =>
          {| sessions := sessions w;
             pendingPermissions := pendingPermissions';
             stopSignals := stopSignals w;
             endedSignals := endedSignals w;
             effects := effects w |}
      end
  | Some (StopFile sid (Some stopSignal)) =>
      let stopSignals' := <[sid := stopSignal]> (stopSignals w) in
      let pendingPermissions' := delete sid (pendingPermissions w) in
      match sessions w !! sid with
      | Some session =>
          let previousStatus := status session in
          let session' :=
            assignSignalFields session
              (overrideStatus (status session) st_waiting false)
              None (Some true) (hasEndedSignal session) in
          {| sessions := <[sid := session']> (sessions w);
             pendingPermissions := pendingPermissions';
             stopSignals := stopSignals';
             endedSignals := endedSignals w;
             effects := effects w ++
               [EmitSession {| type := updated; session := session';
                               previousStatus := Some previousStatus |}] |}
      | None =>
          {| sessions := sessions w;
             pendingPermissions := pendingPermissions';
             stopSignals := stopSignals';
             endedSignals := endedSignals w;
             effects := effects w |}
      end
  | Some (EndedFile sid (Some endSignal)) =>
      let endedSignals' := <[sid := endSignal]> (endedSignals w) in
      let pendingPermissions' := delete sid (pendingPermissions w) in
      let stopSignals' := delete sid (stopSignals w) in
      match sessions w !! sid with
      | Some session =>
          let previousStatus := status session in
          let session' :=
            assignSignalFields session
              (overrideStatus (status session) st_idle false)
              None (Some false) (Some true) in
          {| sessions := <[sid := session']> (sessions w);
             pendingPermissions := pendingPermissions';
             stopSignals := stopSignals';
             endedSignals := endedSignals';
             effects := effects w ++
               [EmitSession {| type := updated; session := session';
                               previousStatus := Some previousStatus |}] |}
      | None =>
          {| sessions := sessions w;
             pendingPermissions := pendingPermissions';
             stopSignals := stopSignals';
             endedSignals := endedSignals';
             effects := effects w |}
      end
  end.

(** *** handleFile *)

(** The result of the git lookup [getGitInfoCached(cwd)]. *)
Record GitInfo : Type := mkGitInfo {
  repoUrl : option string;
  repoId : option string;
  branch : option string;
  isGitRepo : bool
}.

(** The outcome of [tailJSONL(filepath, fromByte)]: the entries appended
    since the stored offset and the new offset, or a thrown error with its
    [code]. *)
Inductive TailResult : Type :=
| TailOk (newEntries : list LogEntry) (newPosition : Z)
| TailError (code : string).

Definition withSignals (w : SessionWatcher)
    (pp : gmap string PendingPermission) (ss : gmap string StopSignal)
    (eff : list Effect) : SessionWatcher :=
  {| sessions := sessions w; pendingPermissions := pp; stopSignals := ss;
     endedSignals := endedSignals w; effects := (effects w ++ eff)%list |}.

(** The [unlink] of the signal file may fail; the failure is swallowed, so
    only the attempt is recorded. *)
Definition clearPendingPermission (w : SessionWatcher) (sid : string)
    : SessionWatcher :=
  match pendingPermissions w !! sid with
  | None => w
  | Some _ =>
      withSignals w (delete sid (pendingPermissions w)) (stopSignals w)
                  [UnlinkSignal sid Permission]
  end.

Definition clearStopSignal (w : SessionWatcher) (sid : string)
    : SessionWatcher :=
  match stopSignals w !! sid with
  | None => w
  | Some _ =>
      withSignals w (pendingPermissions w) (delete sid (stopSignals w))
                  [UnlinkSignal sid Stop]
  end.

(** The callback of [newEntries.some(...)] that looks for a tool result. *)
Definition isToolResultEntry (entry : LogEntry) : bool :=
  match entry with
  | UserEntry _ (ContentArray blocks) => existsb StatusMachine.isToolResult blocks
  | _ => false
  end.

(** The callback of [newEntries.some(...)] that looks for a user prompt. *)
Definition isUserPromptEntry (entry : LogEntry) : bool :=
  match entry with
  | UserEntry _ (ContentString _) => true
  | _ => false
  end.

(** [a || b] on [string | null]: [null] and the empty string are falsy. *)
Definition orElse (a b : option string) : option string :=
  match a with
  | Some s => if String.eqb s "" then b else Some s
  | None => b
  end.

(** The two checks [handleFile] makes on the new entries before it
    derives the status: a tool result among them clears the held
    permission signal, a user prompt among them clears the held stop
    signal. *)
Definition clearResolvedSignals (w : SessionWatcher) (sid : string)
    (newEntries : list LogEntry) : SessionWatcher :=
  let hasToolResult := existsb isToolResultEntry newEntries in
  let w1 :=
    if hasToolResult && bool_decide (is_Some (pendingPermissions w !! sid))
    then clearPendingPermission w sid else w in
  let hasUserPrompt := existsb isUserPromptEntry newEntries in
  if hasUserPrompt && bool_decide (is_Some (stopSignals w1 !! sid))
  then clearStopSignal w1 sid else w1.

Section HandleFile.
Variable parseDate : string -> option Z.
(** [extractSessionId], [extractEncodedDir] and [extractMetadata] are
    imported from [parser.js]. *)
Variable extractSessionId : string -> string.
Variable extractEncodedDir : string -> string.
Variable extractMetadata : list LogEntry -> option SessionMetadata.

(** One pass of [handleFile(filepath, eventType)]; [eventType] is not
    read by the body.  [read] is what [tailJSONL] produced, [git] what
    the one git lookup of the pass returned, [now] the clock at status
    derivation. *)
Definition handleFile (w : SessionWatcher) (path : string)
    (read : TailResult) (git : GitInfo) (now : Z) : SessionWatcher :=
  let sid := extractSessionId path in
  let existingSession := sessions w !! sid in
  match read with
  | TailError code =>
      if String.eqb code "ENOENT" then w
      else withSignals w (pendingPermissions w) (stopSignals w) [EmitError code]
  | TailOk newEntries newPosition =>
      if (Z.of_nat (length newEntries) =? 0) && bool_decide (is_Some existingSession)
      then w
      else
        let allEntries :=
          match existingSession with
          | Some s => (entries s ++ newEntries)%list
          | None => newEntries
          end in
        let metadata :=
          match existingSession with
          | Some s =>
              Some {| md_sessionId := sessionId s; md_cwd := cwd s;
                      md_gitBranch := gitBranch s;
                      md_originalPrompt := originalPrompt s;
                      md_startedAt := startedAt s |}
          | None => extractMetadata allEntries
          end in
        match metadata with
        | None => w
        | Some metadata =>
            let cachedGit :=
              match existingSession with
              | Some s =>
                  {| repoUrl := gitRepoUrl s; repoId := gitRepoId s;
                     branch := gitBranch s;
                     isGitRepo := bool_decide (gitRepoUrl s <> None)
                                  || bool_decide (gitBranch s <> None) |}
              | None => git
              end in
            let branchChanged' :=
              match existingSession with
              | Some s => bool_decide (branch git <> gitBranch s)
              | None => false
              end in
            let gitInfo := if branchChanged' then git else cachedGit in
            let w2 := clearResolvedSignals w sid newEntries in
            let derived := Status.deriveStatus parseDate now allEntries in
            let previousStatus := status <$> existingSession in
            let pendingPermission' := pendingPermissions w2 !! sid in
            let status' :=
              match pendingPermission' with
              | Some _ => overrideStatus derived st_waiting true
              | None => derived
              end in
            let session' :=
              {| sessionId := sid;
                 filepath := path;
                 encodedDir := extractEncodedDir path;
                 cwd := md_cwd metadata;
                 gitBranch := orElse (branch gitInfo) (md_gitBranch metadata);
                 originalPrompt := md_originalPrompt metadata;
                 startedAt := md_startedAt metadata;
                 status := status';
                 entries := allEntries;
                 bytePosition := newPosition;
                 gitRepoUrl := repoUrl gitInfo;
                 gitRepoId := repoId gitInfo;
                 branchChanged := Some branchChanged';
                 pendingPermission := pendingPermission';
                 hasStopSignal := Some (bool_decide (is_Some (stopSignals w2 !! sid)));
                 hasEndedSignal := Some (bool_decide (is_Some (endedSignals w2 !! sid))) |} in
            let hasStatusChange := Status.statusChanged previousStatus status' in
            let hasNewMessages :=
              match existingSession with
              | Some s => Types.messageCount (status s) <? Types.messageCount status'
              | None => false
              end in
            let event :=
              match existingSession with
              | None =>
                  [EmitSession {| type := created; session := session';
                                  previousStatus := None |}]
              | Some _ =>
                  if hasStatusChange || hasNewMessages || branchChanged'
                  then [EmitSession {| type := updated; session := session';
                                       previousStatus := previousStatus |}]
                  else []
              end in
            {| sessions := <[sid := session']> (sessions w2);
               pendingPermissions := pendingPermissions w2;
               stopSignals := stopSignals w2;
               endedSignals := endedSignals w2;
               effects := (effects w2 ++ event)%list |}
        end
  end.
End HandleFile.

(** Every stored status carries the role that [machineStatusToResult]
    writes. *)
Definition storedRoleAssistant (w : SessionWatcher) : Prop :=
  map_Forall (fun _ s => lastRole (status s) = role_assistant) (sessions w).

End Watcher.

(* ===================================================================== *)
(** ** The transition table of the specification (section 4.2)

    The table as the specification words it: rows of source state, event,
    target state and a list of context effects, with the meaning of each
    effect.  It is compared with [StatusMachine.statusMachine] below. *)
(* ===================================================================== *)

Module TransitionTable.
Import StatusMachine.

Inductive EventType : Type :=
| T_USER_PROMPT | T_TOOL_RESULT | T_ASSISTANT_STREAMING
| T_ASSISTANT_TOOL_USE | T_TURN_END | T_APPROVAL_TIMEOUT | T_STALE_TIMEOUT.

Definition eventType (e : StatusEvent) : EventType :=
  match e with
  | USER_PROMPT _ => T_USER_PROMPT
  | TOOL_RESULT _ _ => T_TOOL_RESULT
  | ASSISTANT_STREAMING _ => T_ASSISTANT_STREAMING
  | ASSISTANT_TOOL_USE _ _ => T_ASSISTANT_TOOL_USE
  | TURN_END _ => T_TURN_END
  | APPROVAL_TIMEOUT => T_APPROVAL_TIMEOUT
  | STALE_TIMEOUT => T_STALE_TIMEOUT
  end.

Definition eventTimestamp (e : StatusEvent) : option string :=
  match e with
  | USER_PROMPT t | TOOL_RESULT t _ | ASSISTANT_STREAMING t
  | ASSISTANT_TOOL_USE t _ | TURN_END t => Some t
  | APPROVAL_TIMEOUT | STALE_TIMEOUT => None
  end.

Definition eventIds (e : StatusEvent) : list string :=
  match e with
  | TOOL_RESULT _ ids | ASSISTANT_TOOL_USE _ ids => ids
  | _ => []
  end.

Inductive ContextEffect : Type :=
| BumpActivity        (* last-activity time becomes the event's timestamp *)
| BumpCount           (* message count grows by one *)
| ClearPendingState   (* pending flag false, pending set empty *)
| SetPendingIds       (* pending set becomes the event's ids, flag true *)
| RemoveResolved      (* drop the event's ids from the pending set;
                         flag = the set is non-empty *)
| ClearPendingFlag.   (* pending flag false, pending set untouched *)

Definition applyEffect (e : StatusEvent) (c : StatusContext)
    (eff : ContextEffect) : StatusContext :=
  match eff with
  | BumpActivity =>
      mkStatusContext (default (lastActivityAt c) (eventTimestamp e))
                      (messageCount c) (hasPendingToolUse c) (pendingToolIds c)
  | BumpCount =>
      mkStatusContext (lastActivityAt c) (Z.succ (messageCount c))
                      (hasPendingToolUse c) (pendingToolIds c)
  | ClearPendingState =>
      mkStatusContext (lastActivityAt c) (messageCount c) false []
  | SetPendingIds =>
      mkStatusContext (lastActivityAt c) (messageCount c) true (eventIds e)
  | RemoveResolved =>
      let remaining := filter (fun id => id ∉ eventIds e) (pendingToolIds c) in
      mkStatusContext (lastActivityAt c) (messageCount c)
                      (bool_decide (remaining <> [])) remaining
  | ClearPendingFlag =>
      mkStatusContext (lastActivityAt c) (messageCount c) false (pendingToolIds c)
  end.

Definition applyEffects (e : StatusEvent) (effs : list ContextEffect)
    (c : StatusContext) : StatusContext :=
  fold_left (applyEffect e) effs c.

Record Row : Type := mkRow {
  from : StatusState;
  on : EventType;
  to : StatusState;
  effect : list ContextEffect
}.

Definition rows : list Row :=
  [ mkRow working T_USER_PROMPT working [BumpActivity; BumpCount; ClearPendingState];
    mkRow working T_ASSISTANT_STREAMING working [BumpActivity];
    mkRow working T_ASSISTANT_TOOL_USE working [BumpActivity; BumpCount; SetPendingIds];
    mkRow working T_TOOL_RESULT working [BumpActivity; BumpCount; RemoveResolved];
    mkRow working T_TURN_END waiting_for_input [BumpActivity; ClearPendingState];
    mkRow working T_APPROVAL_TIMEOUT waiting_for_approval [];
    mkRow working T_STALE_TIMEOUT waiting_for_input [ClearPendingFlag];
    mkRow waiting_for_approval T_TOOL_RESULT working [BumpActivity; BumpCount; RemoveResolved];
    mkRow waiting_for_input T_USER_PROMPT working [BumpActivity; BumpCount];
    mkRow waiting_for_input T_ASSISTANT_STREAMING waiting_for_input [BumpActivity];
    mkRow waiting_for_input T_TURN_END waiting_for_input [BumpActivity] ].

End TransitionTable.

(* ===================================================================== *)
(** ** Event extraction as the specification words it (section 4.2)

    The identifiers an extracted event carries, read off the blocks
    directly; compared with [StatusMachine.logEntryToEvent] below. *)
(* ===================================================================== *)

Module ExtractionSpec.
Import Types StatusMachine.

(** Identifiers of the tool-invocation blocks whose tool name is not in
    the auto-approved set, in block order. *)
Definition approvalIds (content : list AssistantContentBlock) : list string :=
  omap (fun b =>
          match b with
          | AToolUseBlock id name =>
              if decide (name ∈ autoApprovedTools) then None else Some id
          | _ => None
          end) content.

(** Identifiers that the tool-result blocks of a user entry resolve, in
    block order. *)
Definition resolvedIds (blocks : list UserContentBlock) : list string :=
  omap (fun b =>
          match b with
          | UToolResultBlock id _ => Some id
          | _ => None
          end) blocks.

(** The tool names the source lists as auto-approved. *)
Definition autoApprovedNames : list string :=
  [ "Task"; "Read"; "Glob"; "Grep"; "WebSearch"; "WebFetch";
    "TodoWrite"; "AskUserQuestion"; "NotebookEdit"; "TaskOutput" ].

End ExtractionSpec.

(* ===================================================================== *)
(** ** A small session used in the examples *)
(* ===================================================================== *)

Module Examples.
Import Types Watcher.

Definition t_prompt : string := "2025-01-15T10:30:00.000Z".
Definition t_call : string := "2025-01-15T10:30:02.000Z".
Definition t_result : string := "2025-01-15T10:30:05.000Z".

Definition promptEntry : LogEntry := UserEntry t_prompt (ContentString "run the tests").
Definition callEntry : LogEntry :=
  AssistantEntry t_call [ATextBlock "Running them."; AToolUseBlock "toolu_01" "Bash"].
Definition resultEntry : LogEntry :=
  UserEntry t_result (ContentArray [UToolResultBlock "toolu_01" "ok"]).
Definition followUpEntry : LogEntry :=
  UserEntry t_result (ContentString "now run the linter").

Definition logPath : string :=
  "/home/dev/.claude/projects/-Users-test-project/7f3c2a.jsonl".

(** Stand-ins for the [parser.js] functions, enough for one log file. *)
Definition sessionIdOf (path : string) : string :=
  if String.eqb path logPath then "7f3c2a" else path.
Definition encodedDirOf (path : string) : string :=
  if String.eqb path logPath then "-Users-test-project" else "".
Definition metadataOf (entries : list LogEntry) : option SessionMetadata :=
  match entries with
  | UserEntry ts (ContentString prompt) :: _ =>
      Some {| md_sessionId := "7f3c2a"; md_cwd := "/Users/test/project";
              md_gitBranch := Some "main"; md_originalPrompt := prompt;
              md_startedAt := ts |}
  | _ => None
  end.

Definition heldPermission : PendingPermission :=
  {| pp_session_id := "7f3c2a"; tool_name := "Bash";
     pending_since := "2025-01-15T10:30:03.000Z" |}.

Definition heldStop : StopSignal :=
  {| ss_session_id := "7f3c2a"; stopped_at := "2025-01-15T10:30:04.000Z" |}.

Definition endSignal : SessionEndSignal :=
  {| se_session_id := "7f3c2a"; ended_at := "2025-01-15T10:31:00.000Z" |}.

Definition gitMain : GitInfo :=
  {| repoUrl := Some "https://github.com/test/project";
     repoId := Some "test/project"; branch := Some "main"; isGitRepo := true |}.

(** The session after the prompt and the tool call were read and the
    permission hook fired. *)
Definition trackedSession : SessionState :=
  {| sessionId := "7f3c2a"; filepath := logPath;
     encodedDir := "-Users-test-project"; cwd := "/Users/test/project";
     gitBranch := Some "main"; originalPrompt := "run the tests";
     startedAt := t_prompt;
     status := overrideStatus
                 (Status.deriveStatus IsoDate.parse 1736937002000
                    [promptEntry; callEntry]) st_waiting true;
     entries := [promptEntry; callEntry]; bytePosition := 512;
     gitRepoUrl := Some "https://github.com/test/project";
     gitRepoId := Some "test/project";
     branchChanged := Some false;
     pendingPermission := Some heldPermission;
     hasStopSignal := Some false; hasEndedSignal := Some false |}.

Definition watching : SessionWatcher :=
  {| sessions := {[ "7f3c2a" := trackedSession ]};
     pendingPermissions := {[ "7f3c2a" := heldPermission ]};
     stopSignals := {[ "7f3c2a" := heldStop ]};
     endedSignals := ∅;
     effects := [] |}.

End Examples.

(* ===================================================================== *)
(** ** types.ts: the type guards *)
(* ===================================================================== *)

Module TypeGuards.
Import Types.

Definition isUserEntry (entry : LogEntry) : bool :=
  match entry with UserEntry _ _ => true | _ => false end.

Definition isAssistantEntry (entry : LogEntry) : bool :=
  match entry with AssistantEntry _ _ => true | _ => false end.

Definition isMessageEntry (entry : LogEntry) : bool :=
  isUserEntry entry || isAssistantEntry entry.

End TypeGuards.

(* ===================================================================== *)
(** ** Shapes of actors and entries used to state facts about the replay *)
(* ===================================================================== *)

Module ReplayShape.
Import Types StatusMachine.

(** What every actor reached by replaying log entries satisfies: it is not
    in [waiting_for_approval], its pending flag says whether the pending
    set is non-empty, and in [waiting_for_input] nothing is pending. *)
Definition coherent (a : Actor) : Prop :=
  fst a <> waiting_for_approval
  /\ (hasPendingToolUse (snd a) = true <-> pendingToolIds (snd a) <> [])
  /\ (fst a = waiting_for_input ->
      hasPendingToolUse (snd a) = false /\ pendingToolIds (snd a) = []).

(** Entries that carry no status signal: queue operations, file-history
    snapshots, system entries other than the two turn-end markers, and user
    entries whose content array has neither a tool result nor a text
    block. *)
Definition carriesNoSignal (entry : LogEntry) : bool :=
  match entry with
  | QueueOperationEntry _ | FileHistorySnapshotEntry => true
  | SystemEntry subtype _ =>
      negb (String.eqb subtype "turn_duration"
            || String.eqb subtype "stop_hook_summary")
  | UserEntry _ (ContentArray blocks) =>
      negb (existsb isToolResult blocks) && negb (existsb isText blocks)
  | _ => false
  end.

(** The [timestamp] field of the entries that have one at top level. *)
Definition entryTimestamp (entry : LogEntry) : option string :=
  match entry with
  | UserEntry ts _ | AssistantEntry ts _ | SystemEntry _ ts
  | QueueOperationEntry ts => Some ts
  | FileHistorySnapshotEntry => None
  end.

(** A tool call of an assistant entry of the log that needs approval. *)
Definition requestedIn (entries : list LogEntry) (id : string) : Prop :=
  exists ts content name,
    AssistantEntry ts content ∈ entries
    /\ AToolUseBlock id name ∈ content
    /\ name ∉ ExtractionSpec.autoApprovedNames.

End ReplayShape.

(* ===================================================================== *)
(** ** watcher.ts: signal file names

    Strings hold the UTF-8 encoding of the JavaScript string, so that the
    line terminators U+2028 and U+2029, which [.] of a regular expression
    does not match, are three bytes each. *)
(* ===================================================================== *)

Module SignalFiles.
Import Watcher.

(** [s.split(sep)] for a one-character separator. *)
Fixpoint split (sep : ascii) (s : string) : list string :=
  match s with
  | EmptyString => [EmptyString]
  | String c rest =>
      if Ascii.eqb c sep then EmptyString :: split sep rest
      else match split sep rest with
           | head :: tail => String c head :: tail
           | [] => [String c EmptyString]
           end
  end.

(** [filepath.split("/").pop() || ""] *)
Definition fileName (filepath : string) : string :=
  match last (split "/" filepath) with
  | Some name => name
  | None => ""
  end.

Definition LF : ascii := ascii_of_nat 10.
Definition CR : ascii := ascii_of_nat 13.
(** U+2028 and U+2029 in UTF-8. *)
Definition LS : string :=
  String (ascii_of_nat 226) (String (ascii_of_nat 128) (String (ascii_of_nat 168) "")).
Definition PS : string :=
  String (ascii_of_nat 226) (String (ascii_of_nat 128) (String (ascii_of_nat 169) "")).

(** Whether [.+] fails to cover the whole of [s]: [.] matches every
    character but the four line terminators. *)
Fixpoint hasLineTerminator (s : string) : bool :=
  match s with
  | EmptyString => false
  | String c rest =>
      Ascii.eqb c LF || Ascii.eqb c CR
      || String.prefix LS s || String.prefix PS s
      || hasLineTerminator rest
  end.

(** [s] without its ending [suffix], when it ends with it. *)
Fixpoint stripSuffix (suffix s : string) : option string :=
  if String.eqb s suffix then Some EmptyString
  else match s with
       | EmptyString => None
       | String c rest => option_map (String c) (stripSuffix suffix rest)
       end.

Definition kindName (kind : SignalType) : string :=
  match kind with
  | Permission => "permission"
  | Stop => "stop"
  | Ended => "ended"
  end.

(** The file name [<session_id>.<kind>.json]. *)
Definition signalFileName (sessionId : string) (kind : SignalType) : string :=
  sessionId ++ "." ++ kindName kind ++ ".json".

(** One alternative of [/^(.+)\.(permission|stop|ended)\.json$/]: the name
    ends with [.<kind>.json] and what precedes is non-empty and free of
    line terminators. *)
Definition matchKind (filename : string) (kind : SignalType)
    : option (string * SignalType) :=
  match stripSuffix ("." ++ kindName kind ++ ".json") filename with
  | Some id =>
      if negb (String.eqb id "") && negb (hasLineTerminator id)
      then Some (id, kind) else None
  | None => None
  end.

Definition parseSignalFilename (filepath : string) : option (string * SignalType) :=
  let filename := fileName filepath in
  match matchKind filename Permission with
  | Some r => Some r
  | None =>
      match matchKind filename Stop with
      | Some r => Some r
      | None => matchKind filename Ended
      end
  end.

End SignalFiles.

(* ===================================================================== *)
(** ** watcher.ts: signal removal, deletion and the staleness sweep *)
(* ===================================================================== *)

Module WatcherRest.
Import Types Watcher.

Definition withSessions (w : SessionWatcher) (ss : gmap string SessionState)
    (eff : list Effect) : SessionWatcher :=
  {| sessions := ss; pendingPermissions := pendingPermissions w;
     stopSignals := stopSignals w; endedSignals := endedSignals w;
     effects := (effects w ++ eff)%list |}.

Section Handlers.
Variable parseDate : string -> option Z.
Variable extractSessionId : string -> string.

(** [handleSignalRemoved(filepath)]; [now] is the clock at the status
    derivation of the permission branch. *)
Definition handleSignalRemoved (w : SessionWatcher) (path : string) (now : Z)
    : SessionWatcher :=
  match SignalFiles.parseSignalFilename path with
  | None => w
  | Some (sid, Permission) =>
      let w1 :=
        {| sessions := sessions w;
           pendingPermissions := delete sid (pendingPermissions w);
           stopSignals := stopSignals w; endedSignals := endedSignals w;
           effects := effects w |} in
      match sessions w !! sid with
      | Some session =>
          match pendingPermission session with
          | Some _ =>
              let previousStatus := status session in
              let session' :=
                assignSignalFields session
                  (Status.deriveStatus parseDate now (entries session))
                  None (hasStopSignal session) (hasEndedSignal session) in
              withSessions w1 (<[sid := session']> (sessions w))
                [EmitSession {| type := updated; session := session';
                                previousStatus := Some previousStatus |}]
          | None => w1
          end
      | None => w1
      end
  | Some (sid, Stop) =>
      let w1 :=
        {| sessions := sessions w;
           pendingPermissions := pendingPermissions w;
           stopSignals := delete sid (stopSignals w);
           endedSignals := endedSignals w;
           effects := effects w |} in
      match sessions w !! sid with
      | Some session =>
          withSessions w1
            (<[sid := assignSignalFields session (status session)
                        (pendingPermission session) (Some false)
                        (hasEndedSignal session)]> (sessions w)) []
      | None => w1
      end
  | Some (sid, Ended) =>
      let w1 :=
        {| sessions := sessions w;
           pendingPermissions := pendingPermissions w;
           stopSignals := stopSignals w;
           endedSignals := delete sid (endedSignals w);
           effects := effects w |} in
      match sessions w !! sid with
      | Some session =>
          withSessions w1
            (<[sid := assignSignalFields session (status session)
                        (pendingPermission session) (hasStopSignal session)
                        (Some false)]> (sessions w)) []
      | None => w1
      end
  end.

(** [handleDelete(filepath)] *)
Definition handleDelete (w : SessionWatcher) (path : string) : SessionWatcher :=
  let sid := extractSessionId path in
  match sessions w !! sid with
  | Some session =>
      withSessions w (delete sid (sessions w))
        [EmitSession {| type := deleted; session := session;
                        previousStatus := None |}]
  | None => w
  end.

(** The body of the loop of [checkStaleSessions] for the session stored
    under [sid]; [now] is the clock at its status derivation. *)
Definition checkStaleSession (w : SessionWatcher) (visit : string * Z)
    : SessionWatcher :=
  let sid := fst visit in
  let now := snd visit in
  match sessions w !! sid with
  | None => w
  | Some session =>
      if negb (SessionStatus_eqb (Types.status (status session)) st_working)
      then w
      else
        let newStatus := Status.deriveStatus parseDate now (entries session) in
        if Status.statusChanged (Some (status session)) newStatus then
          let previousStatus := status session in
          let session' :=
            assignSignalFields session newStatus (pendingPermission session)
              (hasStopSignal session) (hasEndedSignal session) in
          withSessions w (<[sid := session']> (sessions w))
            [EmitSession {| type := updated; session := session';
                            previousStatus := Some previousStatus |}]
        else w
  end.

(** [checkStaleSessions()].  The loop visits the values of the session
    [Map] in its iteration order, which the finite map here does not
    record, and reads the clock once per derivation: [visits] lists the
    keys in that order, each with its clock reading. *)
Definition checkStaleSessions (w : SessionWatcher) (visits : list (string * Z))
    : SessionWatcher :=
  fold_left checkStaleSession visits w.

(** The stored status of a session is what [deriveStatus] gives for its
    entries at some instant. *)
Definition logDerived (s : SessionState) : Prop :=
  exists t, status s = Status.deriveStatus parseDate t (entries s).

End Handlers.


(** A stored status [working] is what [deriveStatus] gives for the stored
    entries at some instant. *)
Definition workingIsDerived (parseDate : string -> option Z)
    (w : SessionWatcher) : Prop :=
  forall sid s,
    sessions w !! sid = Some s ->
    Types.status (status s) = st_working ->
    logDerived parseDate s.


End WatcherRest.

(* ===================================================================== *)
(** ** Further entries and watcher states used in the examples *)
(* ===================================================================== *)

Module MoreExamples.
Import Types Watcher Examples.

(** A prompt whose timestamp is not a date. *)
Definition undatedPrompt : LogEntry := UserEntry "yesterday" (ContentString "hello").

(** Three tool calls in one assistant entry, the last one auto-approved. *)
Definition twoCallsEntry : LogEntry :=
  AssistantEntry t_call
    [AToolUseBlock "toolu_01" "Bash"; AToolUseBlock "toolu_02" "Edit";
     AToolUseBlock "toolu_03" "Read"].

Definition signalsDir : string := "/home/dev/.claude/session-signals".

Definition permissionPath : string :=
  signalsDir ++ "/" ++ SignalFiles.signalFileName "7f3c2a" Permission.

(** The permission hook fired before the log file was seen. *)
Definition beforeFirstRead : SessionWatcher :=
  {| sessions := ∅;
     pendingPermissions := {[ "7f3c2a" := heldPermission ]};
     stopSignals := ∅; endedSignals := ∅; effects := [] |}.

(** A session whose stored status came from the log alone. *)
Definition workingSession : SessionState :=
  {| sessionId := "7f3c2a"; filepath := logPath;
     encodedDir := "-Users-test-project"; cwd := "/Users/test/project";
     gitBranch := Some "main"; originalPrompt := "run the tests";
     startedAt := t_prompt;
     status := Status.deriveStatus IsoDate.parse 1736937002000 [promptEntry; callEntry];
     entries := [promptEntry; callEntry]; bytePosition := 512;
     gitRepoUrl := Some "https://github.com/test/project";
     gitRepoId := Some "test/project";
     branchChanged := Some false;
     pendingPermission := None;
     hasStopSignal := Some false; hasEndedSignal := Some false |}.

Definition quiet : SessionWatcher :=
  {| sessions := {[ "7f3c2a" := workingSession ]};
     pendingPermissions := ∅; stopSignals := ∅; endedSignals := ∅;
     effects := [] |}.

End MoreExamples.

(* ===================================================================== *)
(** * Properties *)
(* ===================================================================== *)

Module TypesFacts.
Import Types.

Lemma SessionStatus_eqb_spec a b : reflect (a = b) (SessionStatus_eqb a b).
Proof. destruct a, b; constructor; congruence. Qed.

Lemma Role_eqb_spec a b : reflect (a = b) (Role_eqb a b).
Proof. destruct a, b; constructor; congruence. Qed.

End TypesFacts.

Module IsoDateFacts.
Import IsoDate.

Example parse_epoch : parse "1970-01-01T00:00:00.000Z" = Some 0.
Proof. reflexivity. Qed.

Example parse_2025 : parse "2025-01-15T10:30:00.000Z" = Some 1736937000000.
Proof. reflexivity. Qed.

Example parse_invalid : parse "yesterday" = None.
Proof. reflexivity. Qed.

End IsoDateFacts.

Module StatusMachineFacts.
Import Types StatusMachine TransitionTable.

Lemma includes_true arr id : includes arr id = true <-> id ∈ arr.
Proof.
  unfold includes. rewrite existsb_exists. split.
  - intros (x & Hin & Heq). apply String.eqb_eq in Heq. subst x.
    by apply list_elem_of_In.
  - intros Hin. exists id. split; [by apply list_elem_of_In | apply String.eqb_refl].
Qed.

Lemma includes_false arr id : includes arr id = false <-> id ∉ arr.
Proof.
  rewrite <- includes_true. destruct (includes arr id); split; congruence.
Qed.

(** The source's [Array.prototype.filter] with [!ids.includes(id)] keeps
    exactly the elements outside [ids]. *)
Lemma remaining_filter ids (pending : list string) :
  List.filter (fun id => negb (includes ids id)) pending
  = filter (fun id => id ∉ ids) pending.
Proof.
  induction pending as [|x xs IH]; [reflexivity|].
  cbn [List.filter]. rewrite filter_cons, IH.
  destruct (includes ids x) eqn:E; cbn [negb].
  - apply includes_true in E. by rewrite decide_False by (intros ?; contradiction).
  - apply includes_false in E. by rewrite decide_True.
Qed.

Lemma nonempty_length {A} (l : list A) :
  (0 <? Z.of_nat (length l)) = bool_decide (l <> []).
Proof. destruct l; reflexivity. Qed.

Lemma resolveTools_effects ts ids c :
  resolveTools ts ids c
  = applyEffects (TOOL_RESULT ts ids) [BumpActivity; BumpCount; RemoveResolved] c.
Proof.
  unfold resolveTools, applyEffects. cbn.
  rewrite nonempty_length, remaining_filter. reflexivity.
Qed.

(** Pairs of state and event outside the table leave the actor as it is. *)
Lemma unlisted_dropped s c e :
  (forall r, In r rows -> ~ (from r = s /\ on r = eventType e)) ->
  send (s, c) e = (s, c).
Proof.
  intros H. unfold send.
  destruct s, e; cbn; try reflexivity;
    exfalso; unfold rows in H;
    match goal with
    | |- False =>
        first
          [ eapply (H (mkRow working T_USER_PROMPT _ _)); cbn; [tauto | by split]
          | eapply (H (mkRow working T_ASSISTANT_STREAMING _ _)); cbn; [tauto | by split]
          | eapply (H (mkRow working T_ASSISTANT_TOOL_USE _ _)); cbn; [tauto | by split]
          | eapply (H (mkRow working T_TOOL_RESULT _ _)); cbn; [tauto | by split]
          | eapply (H (mkRow working T_TURN_END _ _)); cbn; [tauto | by split]
          | eapply (H (mkRow working T_APPROVAL_TIMEOUT _ _)); cbn; [tauto | by split]
          | eapply (H (mkRow working T_STALE_TIMEOUT _ _)); cbn; [tauto | by split]
          | eapply (H (mkRow waiting_for_approval T_TOOL_RESULT _ _)); cbn; [tauto | by split]
          | eapply (H (mkRow waiting_for_input T_USER_PROMPT _ _)); cbn; [tauto | by split]
          | eapply (H (mkRow waiting_for_input T_ASSISTANT_STREAMING _ _)); cbn; [tauto | by split]
          | eapply (H (mkRow waiting_for_input T_TURN_END _ _)); cbn; [tauto | by split] ]
    end.
Qed.

(** C1. For every row of the transition table of section 4.2, sending an
    event of the row's kind to the machine in the row's source state gives
    the row's target state and context effect.  In particular, in state
    [working], [TOOL_RESULT] keeps the state, sets the last-activity time,
    adds one to the message count, leaves in the pending set exactly the
    identifiers that the event does not resolve, and sets the pending flag
    to whether that set is non-empty; [TURN_END] moves to
    [waiting_for_input], sets the last-activity time and clears the
    pending flag and set. *)
Theorem transition_table_correct :
  (forall r e c,
      In r rows -> eventType e = on r ->
      send (from r, c) e = (to r, applyEffects e (effect r) c))
  /\ (forall c ts ids,
        let a := send (working, c) (TOOL_RESULT ts ids) in
        fst a = working
        /\ lastActivityAt (snd a) = ts
        /\ messageCount (snd a) = messageCount c + 1
        /\ (forall id, id ∈ pendingToolIds (snd a)
                       <-> id ∈ pendingToolIds c /\ id ∉ ids)
        /\ (hasPendingToolUse (snd a) = true <-> pendingToolIds (snd a) <> []))
  /\ (forall c ts,
        send (working, c) (TURN_END ts)
        = (waiting_for_input,
           {| lastActivityAt := ts; messageCount := messageCount c;
              hasPendingToolUse := false; pendingToolIds := [] |})).
Proof.
  split; [|split].
  - intros r e c Hin Hev. unfold rows in Hin. cbn [In] in Hin.
    repeat (destruct Hin as [<- | Hin]);
      try (destruct e; cbn in Hev; try discriminate Hev;
           unfold send; cbn; try reflexivity;
           f_equal; apply resolveTools_effects).
    contradiction.
  - intros c ts ids.
    change (send (working, c) (TOOL_RESULT ts ids))
      with (working, resolveTools ts ids c).
    unfold resolveTools.
    cbn [fst snd lastActivityAt messageCount hasPendingToolUse pendingToolIds].
    rewrite nonempty_length, remaining_filter.
    split; [reflexivity|]. split; [reflexivity|]. split; [reflexivity|]. split.
    + intros id. rewrite list_elem_of_filter. tauto.
    + apply bool_decide_eq_true.
  - reflexivity.
Qed.

Lemma transition_table_correct_witness :
  send (working, initialContext) (TOOL_RESULT "2025-01-15T10:30:00.000Z" ["toolu_01"])
  = (working,
     {| lastActivityAt := "2025-01-15T10:30:00.000Z"; messageCount := 1;
        hasPendingToolUse := false; pendingToolIds := [] |}).
Proof.
  apply (proj1 transition_table_correct
           (mkRow working T_TOOL_RESULT working [BumpActivity; BumpCount; RemoveResolved])
           (TOOL_RESULT "2025-01-15T10:30:00.000Z" ["toolu_01"]) initialContext).
  - cbn. tauto.
  - reflexivity.
Defined.

(** *** Event extraction *)

Import ExtractionSpec.

Lemma autoApproved_names name :
  name ∈ autoApprovedTools <-> name ∈ autoApprovedNames.
Proof. unfold autoApprovedTools, autoApprovedNames. apply elem_of_list_to_set. Qed.

Lemma approvalIds_filter content :
  map toolUseId (List.filter needsApproval content) = approvalIds content.
Proof.
  induction content as [|b bs IH]; [reflexivity|].
  unfold approvalIds in *. cbn [List.filter omap list_omap].
  destruct b as [t|id name|t sg]; cbn [needsApproval]; try exact IH.
  destruct (decide (name ∈ autoApprovedTools)) as [Hin|Hout].
  - rewrite bool_decide_eq_true_2 by exact Hin. exact IH.
  - rewrite bool_decide_eq_false_2 by exact Hout. cbn. by rewrite IH.
Qed.

Lemma approvalIds_elem content id :
  id ∈ approvalIds content
  <-> exists name, AToolUseBlock id name ∈ content /\ name ∉ autoApprovedTools.
Proof.
  unfold approvalIds. rewrite list_elem_of_omap. split.
  - intros (b & Hin & Hb). destruct b as [t|id' name|t sg]; try discriminate.
    destruct (decide (name ∈ autoApprovedTools)); [discriminate|].
    injection Hb as ->. eauto.
  - intros (name & Hin & Hout). exists (AToolUseBlock id name).
    split; [exact Hin|]. by rewrite decide_False.
Qed.

Lemma resolvedIds_filter blocks :
  toolResultIds blocks = resolvedIds blocks.
Proof.
  unfold toolResultIds, resolvedIds.
  induction blocks as [|b bs IH]; [reflexivity|].
  destruct b; cbn; rewrite ?IH; reflexivity.
Qed.

Lemma resolvedIds_elem blocks id :
  id ∈ resolvedIds blocks <-> exists c, UToolResultBlock id c ∈ blocks.
Proof.
  unfold resolvedIds. rewrite list_elem_of_omap. split.
  - intros (b & Hin & Hb). destruct b; try discriminate.
    injection Hb as ->. eauto.
  - intros (c & Hin). eauto.
Qed.

Lemma resolvedIds_nil blocks :
  resolvedIds blocks = [] <-> forall id c, UToolResultBlock id c ∉ blocks.
Proof.
  split.
  - intros H id c Hin.
    assert (id ∈ resolvedIds blocks) as Hid by (apply resolvedIds_elem; eauto).
    rewrite H in Hid. by apply not_elem_of_nil in Hid.
  - intros H. destruct (resolvedIds blocks) as [|id ids] eqn:E; [reflexivity|].
    assert (id ∈ resolvedIds blocks) as Hid by (rewrite E; left).
    apply resolvedIds_elem in Hid as [c Hc]. by apply H in Hc.
Qed.

Lemma hasText_true blocks :
  existsb isText blocks = true <-> exists t, UTextBlock t ∈ blocks.
Proof.
  rewrite existsb_exists. split.
  - intros (b & Hin & Hb). destruct b; try discriminate.
    eexists. apply list_elem_of_In. exact Hin.
  - intros (t & Hin). exists (UTextBlock t). split; [by apply list_elem_of_In|reflexivity].
Qed.

Lemma assistant_event_ids ts content :
  logEntryToEvent (AssistantEntry ts content)
  = Some (match approvalIds content with
          | [] => ASSISTANT_STREAMING ts
          | ids => ASSISTANT_TOOL_USE ts ids
          end).
Proof.
  cbn [logEntryToEvent]. rewrite <- approvalIds_filter.
  destruct (List.filter needsApproval content); reflexivity.
Qed.

(** C4. For every assistant entry, the extracted event is
    [ASSISTANT_TOOL_USE] carrying exactly the identifiers of its
    tool-invocation blocks whose tool name is outside the fixed
    auto-approved set, whenever there is such a block, and
    [ASSISTANT_STREAMING] otherwise; an entry whose tool calls are all
    auto-approved gives [ASSISTANT_STREAMING]. *)
Theorem assistant_entry_event ts content :
  logEntryToEvent (AssistantEntry ts content)
  = Some (match approvalIds content with
          | [] => ASSISTANT_STREAMING ts
          | ids => ASSISTANT_TOOL_USE ts ids
          end)
  /\ (forall id, id ∈ approvalIds content
                 <-> exists name, AToolUseBlock id name ∈ content
                                  /\ name ∉ autoApprovedNames)
  /\ ((forall id name, AToolUseBlock id name ∈ content -> name ∈ autoApprovedNames)
      -> logEntryToEvent (AssistantEntry ts content) = Some (ASSISTANT_STREAMING ts)).
Proof.
  pose proof (assistant_event_ids ts content) as Hev.
  split; [exact Hev|]. split.
  - intros id. rewrite approvalIds_elem.
    split; intros (name & Hin & Hout); exists name; split; try exact Hin;
      by rewrite ?autoApproved_names in *.
  - intros Hall. rewrite Hev.
    destruct (approvalIds content) as [|id ids] eqn:E; [reflexivity|].
    assert (id ∈ approvalIds content) as Hid by (rewrite E; left).
    apply approvalIds_elem in Hid as (name & Hin & Hout).
    apply Hall, autoApproved_names in Hin. contradiction.
Qed.

Lemma assistant_entry_event_witness :
  logEntryToEvent
    (AssistantEntry "2025-01-15T10:30:00.000Z"
       [ATextBlock "Let me look."; AToolUseBlock "toolu_01" "Read";
        AToolUseBlock "toolu_02" "Grep"])
  = Some (ASSISTANT_STREAMING "2025-01-15T10:30:00.000Z").
Proof.
  apply (assistant_entry_event "2025-01-15T10:30:00.000Z").
  intros id name Hin. unfold autoApprovedNames.
  repeat (apply elem_of_cons in Hin as [Hin|Hin]; [try discriminate Hin|]).
  - injection Hin as _ ->. set_solver.
  - injection Hin as _ ->. set_solver.
  - by apply not_elem_of_nil in Hin.
Defined.

(** C5 as stated fails: a user entry whose content array holds only an
    image block yields no event, not [USER_PROMPT]. *)
Lemma image_only_user_entry_no_event :
  let e := UserEntry "2025-01-15T10:30:00.000Z"
             (ContentArray [UImageBlock "image/png" "iVBORw0KGgo="]) in
  logEntryToEvent e = None
  /\ logEntryToEvent e <> Some (USER_PROMPT "2025-01-15T10:30:00.000Z").
Proof. split; [reflexivity | discriminate]. Qed.

(** C5, amended. For every user entry: plain-string content gives
    [USER_PROMPT]; a content array with at least one tool-result block
    gives [TOOL_RESULT] carrying the identifiers those blocks resolve; a
    content array with no tool-result block and at least one text block
    gives [USER_PROMPT]; a content array with neither a tool-result nor a
    text block (for instance only image blocks) gives no event. *)
Theorem user_entry_event ts :
  (forall s, logEntryToEvent (UserEntry ts (ContentString s)) = Some (USER_PROMPT ts))
  /\ (forall blocks,
        (exists id c, UToolResultBlock id c ∈ blocks) ->
        logEntryToEvent (UserEntry ts (ContentArray blocks))
        = Some (TOOL_RESULT ts (resolvedIds blocks))
        /\ forall id, id ∈ resolvedIds blocks <-> exists c, UToolResultBlock id c ∈ blocks)
  /\ (forall blocks,
        (forall id c, UToolResultBlock id c ∉ blocks) ->
        (exists t, UTextBlock t ∈ blocks) ->
        logEntryToEvent (UserEntry ts (ContentArray blocks)) = Some (USER_PROMPT ts))
  /\ (forall blocks,
        (forall id c, UToolResultBlock id c ∉ blocks) ->
        (forall t, UTextBlock t ∉ blocks) ->
        logEntryToEvent (UserEntry ts (ContentArray blocks)) = None).
Proof.
  split; [reflexivity|]. split; [|split].
  - intros blocks (id & c & Hin). split; [|apply resolvedIds_elem].
    cbn [logEntryToEvent]. rewrite resolvedIds_filter.
    destruct (resolvedIds blocks) as [|i rest] eqn:E; [|reflexivity].
    exfalso. exact (proj1 (resolvedIds_nil blocks) E id c Hin).
  - intros blocks Hno Htext. cbn [logEntryToEvent].
    rewrite resolvedIds_filter, (proj2 (resolvedIds_nil blocks) Hno).
    apply hasText_true in Htext. cbn. by rewrite Htext.
  - intros blocks Hno Htext. cbn [logEntryToEvent].
    rewrite resolvedIds_filter, (proj2 (resolvedIds_nil blocks) Hno).
    destruct (existsb isText blocks) eqn:E; [|reflexivity].
    apply hasText_true in E as [t Ht]. by apply Htext in Ht.
Qed.

Lemma user_entry_event_witness :
  logEntryToEvent
    (UserEntry "2025-01-15T10:30:00.000Z"
       (ContentArray [UImageBlock "image/png" "iVBORw0KGgo="; UTextBlock "what is this?"]))
  = Some (USER_PROMPT "2025-01-15T10:30:00.000Z").
Proof.
  apply (user_entry_event "2025-01-15T10:30:00.000Z").
  - intros id c Hin.
    repeat (apply elem_of_cons in Hin as [Hin|Hin]; [discriminate Hin|]).
    by apply not_elem_of_nil in Hin.
  - exists "what is this?". set_solver.
Defined.

End StatusMachineFacts.

Module DeriveFacts.
Import Types StatusMachine ExtractionSpec StatusMachineFacts.

Section WithParser.
Variable parseDate : string -> option Z.

Lemma replay_app l1 l2 a : replay (l1 ++ l2) a = replay l2 (replay l1 a).
Proof. unfold replay. apply fold_left_app. Qed.

Lemma replay_cons e l a : replay (e :: l) a = replay l (feed a e).
Proof. reflexivity. Qed.

(** No log entry maps to a synthetic timeout event. *)
Lemma logEntryToEvent_not_timeout entry :
  logEntryToEvent entry <> Some APPROVAL_TIMEOUT
  /\ logEntryToEvent entry <> Some STALE_TIMEOUT.
Proof.
  destruct entry as [ts [s|blocks]|ts content|sub ts|ts|]; cbn;
    repeat match goal with |- context [if ?b then _ else _] => destruct b end;
    split; congruence.
Qed.

(** Replaying log entries never enters [waiting_for_approval]. *)
Lemma feed_not_approval a entry :
  fst a <> waiting_for_approval -> fst (feed a entry) <> waiting_for_approval.
Proof.
  intros Ha. unfold feed.
  pose proof (logEntryToEvent_not_timeout entry) as [H1 H2].
  destruct (logEntryToEvent entry) as [ev|]; [|exact Ha].
  destruct a as [s c]. cbn in Ha.
  destruct s, ev; cbn; congruence.
Qed.

Lemma replay_not_approval entries a :
  fst a <> waiting_for_approval -> fst (replay entries a) <> waiting_for_approval.
Proof.
  revert a. induction entries as [|e es IH]; intros a Ha; [exact Ha|].
  rewrite replay_cons. apply IH, feed_not_approval, Ha.
Qed.

(** Each entry adds at most one to the message count. *)
Lemma send_messageCount a ev :
  messageCount (snd a) <= messageCount (snd (send a ev)) <= messageCount (snd a) + 1.
Proof. destruct a as [s c]. destruct s, ev; cbn; lia. Qed.

Lemma replay_messageCount_bound entries a :
  messageCount (snd a) <= messageCount (snd (replay entries a))
  <= messageCount (snd a) + Z.of_nat (length entries).
Proof.
  revert a. induction entries as [|e es IH]; intros a.
  - cbn. lia.
  - rewrite replay_cons. specialize (IH (feed a e)).
    assert (messageCount (snd a) <= messageCount (snd (feed a e))
            <= messageCount (snd a) + 1) as Hs.
    { unfold feed. destruct (logEntryToEvent e); [apply send_messageCount | lia]. }
    cbn [length]. lia.
Qed.

Lemma exceeds_true x y : exceeds x y = true <-> exists v, x = Some v /\ y < v.
Proof.
  destruct x as [v|]; cbn.
  - rewrite Z.ltb_lt. split; [eauto|]. by intros (? & [= ->] & ?).
  - split; [discriminate|]. by intros (? & ? & ?).
Qed.

Lemma timeSince_exceeds now c y :
  exceeds (timeSinceActivity parseDate now c) y = true
  <-> exists t, lastActivityTime parseDate c = Some t /\ y < now - t.
Proof.
  rewrite exceeds_true. unfold timeSinceActivity.
  destruct (lastActivityTime parseDate c) as [t|]; split.
  - intros (v & [= <-] & Hv). eauto.
  - intros (t' & [= <-] & Ht). eauto.
  - by intros (? & ? & ?).
  - by intros (? & ? & ?).
Qed.

(** C2. When replaying the entries leaves the machine in [working] with
    a pending tool call, then at every evaluation instant the
    derivation injects [APPROVAL_TIMEOUT], and ends in
    [waiting_for_approval], exactly when the time elapsed since the last
    activity exceeds 15000 ms; otherwise, in particular when the elapsed
    time is at most 15000 ms, nothing is injected and the status stays
    [working]. *)
Theorem approval_timeout_threshold now entries c :
  replay entries createActor = (working, c) ->
  hasPendingToolUse c = true ->
  let exceeded :=
    exists t, lastActivityTime parseDate c = Some t /\ 15000 < now - t in
  (timeoutEvent parseDate now (working, c) = Some APPROVAL_TIMEOUT <-> exceeded)
  /\ (fst (deriveStatusFromMachine parseDate now entries) = waiting_for_approval
      <-> exceeded)
  /\ (exceeded ->
      deriveStatusFromMachine parseDate now entries = (waiting_for_approval, c))
  /\ (~ exceeded ->
      timeoutEvent parseDate now (working, c) = None
      /\ deriveStatusFromMachine parseDate now entries = (working, c))
  /\ (forall t, lastActivityTime parseDate c = Some t -> now - t <= 15000 ->
      deriveStatusFromMachine parseDate now entries = (working, c)).
Proof.
  intros Hrep Hpend exceeded.
  assert (exceeds (timeSinceActivity parseDate now c) APPROVAL_TIMEOUT_MS = true
          <-> exceeded) as Hex by apply timeSince_exceeds.
  assert (timeoutEvent parseDate now (working, c)
          = if exceeds (timeSinceActivity parseDate now c) APPROVAL_TIMEOUT_MS
            then Some APPROVAL_TIMEOUT else None) as Hte.
  { unfold timeoutEvent. cbn [fst snd isWorking]. rewrite Hpend. cbn.
    destruct (exceeds _ APPROVAL_TIMEOUT_MS); reflexivity. }
  assert (deriveStatusFromMachine parseDate now entries
          = if exceeds (timeSinceActivity parseDate now c) APPROVAL_TIMEOUT_MS
            then (waiting_for_approval, c) else (working, c)) as Hd.
  { unfold deriveStatusFromMachine. rewrite Hrep, Hte.
    destruct (exceeds _ APPROVAL_TIMEOUT_MS); reflexivity. }
  rewrite Hte, Hd.
  destruct (exceeds (timeSinceActivity parseDate now c) APPROVAL_TIMEOUT_MS) eqn:E.
  - assert exceeded as He by (by apply Hex).
    repeat split; try tauto.
    intros t Ht Hle. destruct He as (t' & Ht' & Hgt).
    rewrite Ht in Ht'. injection Ht' as <-. lia.
  - assert (~ exceeded) as Hne.
    { intros He. apply Hex in He. discriminate. }
    repeat split; try tauto; try discriminate.
Qed.

(** C7. Deriving status from no entries is defined for every instant:
    the machine is in its initial state [waiting_for_input], which is
    reported as [waiting], with the pending flag false, message count 0
    and the empty last-activity timestamp. *)
Theorem derive_empty now :
  deriveStatusFromMachine parseDate now [] = (waiting_for_input, initialContext)
  /\ Status.deriveStatus parseDate now []
     = {| Types.status := st_waiting;
          Types.lastRole := role_assistant;
          Types.hasPendingToolUse := false;
          Types.lastActivityAt := "";
          Types.messageCount := 0 |}.
Proof. split; reflexivity. Qed.

(** Without a preceding prompt the machine is in [waiting_for_input],
    which handles neither [ASSISTANT_TOOL_USE] nor [TOOL_RESULT]: both
    entries are dropped. *)
Lemma feed_event a e ev : logEntryToEvent e = Some ev -> feed a e = send a ev.
Proof. intros H. unfold feed. by rewrite H. Qed.

Lemma tool_use_event t content i ids :
  approvalIds content = i :: ids ->
  logEntryToEvent (AssistantEntry t content) = Some (ASSISTANT_TOOL_USE t (i :: ids)).
Proof. intros H. by rewrite assistant_event_ids, H. Qed.

Lemma tool_result_event t blocks j js :
  resolvedIds blocks = j :: js ->
  logEntryToEvent (UserEntry t (ContentArray blocks)) = Some (TOOL_RESULT t (j :: js)).
Proof. intros H. cbn [logEntryToEvent]. by rewrite resolvedIds_filter, H. Qed.

Lemma pair_without_prompt_dropped now t1 content t2 blocks :
  approvalIds content <> [] ->
  resolvedIds blocks <> [] ->
  deriveStatusFromMachine parseDate now
    [AssistantEntry t1 content; UserEntry t2 (ContentArray blocks)]
  = (waiting_for_input, initialContext).
Proof.
  intros Hc Hb.
  destruct (approvalIds content) as [|i ids] eqn:Ei; [contradiction|].
  destruct (resolvedIds blocks) as [|j js] eqn:Ej; [contradiction|].
  unfold deriveStatusFromMachine.
  assert (replay [AssistantEntry t1 content; UserEntry t2 (ContentArray blocks)]
            createActor = (waiting_for_input, initialContext)) as ->.
  { rewrite !replay_cons.
    rewrite (feed_event _ _ _ (tool_use_event t1 content i ids Ei)).
    rewrite (feed_event _ _ _ (tool_result_event t2 blocks j js Ej)).
    reflexivity. }
  reflexivity.
Qed.

(** C8, amended. After entries that leave the machine in [working], an
    assistant entry with one tool call that needs approval, followed by
    a user entry whose content is a tool-result block for that call,
    gives status [working] with the pending flag false, at every instant
    at which no more than 60000 ms have passed since the tool result. *)
Theorem tool_result_returns_to_working now pre c t1 content id t2 out :
  replay pre createActor = (working, c) ->
  approvalIds content = [id] ->
  (forall t, (if String.eqb t2 "" then Some 0 else parseDate t2) = Some t ->
             now - t <= 60000) ->
  let entries :=
    (pre ++ [AssistantEntry t1 content;
             UserEntry t2 (ContentArray [UToolResultBlock id out])])%list in
  deriveStatusFromMachine parseDate now entries
  = (working,
     {| lastActivityAt := t2; messageCount := messageCount c + 2;
        hasPendingToolUse := false; pendingToolIds := [] |})
  /\ Types.status (Status.deriveStatus parseDate now entries) = st_working
  /\ Types.hasPendingToolUse (Status.deriveStatus parseDate now entries) = false.
Proof.
  intros Hpre Hids Hnow entries.
  assert (replay entries createActor
          = (working,
             {| lastActivityAt := t2; messageCount := messageCount c + 2;
                hasPendingToolUse := false; pendingToolIds := [] |})) as Hrep.
  { unfold entries. rewrite replay_app, Hpre, !replay_cons.
    rewrite (feed_event _ _ _ (tool_use_event t1 content id [] Hids)).
    rewrite (feed_event _ _ _
               (tool_result_event t2 [UToolResultBlock id out] id [] eq_refl)).
    unfold send. cbn [statusMachine fst snd target actions default].
    unfold replay, resolveTools, includes.
    cbn [fold_left pendingToolIds messageCount List.filter existsb].
    rewrite String.eqb_refl. cbn [orb negb length Z.of_nat Z.ltb Z.compare].
    do 2 f_equal. lia. }
  assert (deriveStatusFromMachine parseDate now entries
          = (working,
             {| lastActivityAt := t2; messageCount := messageCount c + 2;
                hasPendingToolUse := false; pendingToolIds := [] |})) as Hd.
  { unfold deriveStatusFromMachine. rewrite Hrep.
    unfold timeoutEvent. cbn [fst snd isWorking hasPendingToolUse andb negb].
    destruct (exceeds _ STALE_TIMEOUT_MS) eqn:E; [|reflexivity].
    apply timeSince_exceeds in E as (t & Ht & Hgt).
    unfold lastActivityTime in Ht. cbn [lastActivityAt] in Ht.
    apply Hnow in Ht. unfold STALE_TIMEOUT_MS in Hgt. lia. }
  split; [exact Hd|]. unfold Status.deriveStatus. rewrite Hd. split; reflexivity.
Qed.

(** C10. The result of [deriveStatus] always has [lastRole] equal to
    assistant, whatever the entries; hence [statusChanged] between two
    derived results reports a change exactly when the status or the
    pending flag differs. *)
Theorem lastRole_always_assistant :
  (forall now entries,
      Types.lastRole (Status.deriveStatus parseDate now entries) = role_assistant)
  /\ (forall now1 entries1 now2 entries2,
        let prev := Status.deriveStatus parseDate now1 entries1 in
        let next := Status.deriveStatus parseDate now2 entries2 in
        Status.statusChanged (Some prev) next
        = negb (SessionStatus_eqb (Types.status prev) (Types.status next))
          || Status.bool_neq (Types.hasPendingToolUse prev)
                             (Types.hasPendingToolUse next))
  /\ (forall now1 entries1 now2 entries2,
        let prev := Status.deriveStatus parseDate now1 entries1 in
        let next := Status.deriveStatus parseDate now2 entries2 in
        Types.status prev = Types.status next ->
        Types.hasPendingToolUse prev = Types.hasPendingToolUse next ->
        Status.statusChanged (Some prev) next = false).
Proof.
  split; [reflexivity|]. split.
  - intros now1 e1 now2 e2 prev next. unfold Status.statusChanged.
    change (Types.lastRole prev) with role_assistant.
    change (Types.lastRole next) with role_assistant.
    cbn [Role_eqb negb]. by rewrite orb_false_r.
  - intros now1 e1 now2 e2 prev next Hs Hp. unfold Status.statusChanged.
    change (Types.lastRole prev) with role_assistant.
    change (Types.lastRole next) with role_assistant.
    rewrite Hs, Hp. unfold Status.bool_neq.
    rewrite Bool.eqb_reflx.
    by destruct (Types.status next).
Qed.

End WithParser.

(** *** Instances *)

Import Examples.

Lemma approval_timeout_threshold_witness :
  deriveStatusFromMachine IsoDate.parse 1736937017001 [promptEntry; callEntry]
  = (waiting_for_approval,
     {| lastActivityAt := t_call; messageCount := 2;
        hasPendingToolUse := true; pendingToolIds := ["toolu_01"] |})
  /\ deriveStatusFromMachine IsoDate.parse 1736937017000 [promptEntry; callEntry]
     = (working,
        {| lastActivityAt := t_call; messageCount := 2;
           hasPendingToolUse := true; pendingToolIds := ["toolu_01"] |}).
Proof.
  split.
  - apply (approval_timeout_threshold IsoDate.parse 1736937017001
             [promptEntry; callEntry]); [reflexivity | reflexivity |].
    exists 1736937002000. split; [reflexivity | lia].
  - apply (approval_timeout_threshold IsoDate.parse 1736937017000
             [promptEntry; callEntry]) with (t := 1736937002000);
      [reflexivity | reflexivity | reflexivity | lia].
Defined.

(** C8 as stated fails: for the two entries alone, evaluated at the
    instant of the tool result, the status is [waiting], not [working]. *)
Lemma tool_call_pair_alone_waiting :
  let r := Status.deriveStatus IsoDate.parse 1736937005000 [callEntry; resultEntry] in
  Types.status r = st_waiting /\ Types.status r <> st_working.
Proof. split; [reflexivity | discriminate]. Qed.

Lemma tool_result_returns_to_working_witness :
  deriveStatusFromMachine IsoDate.parse 1736937005000
    [promptEntry; callEntry; resultEntry]
  = (working,
     {| lastActivityAt := t_result; messageCount := 3;
        hasPendingToolUse := false; pendingToolIds := [] |}).
Proof.
  apply (tool_result_returns_to_working IsoDate.parse 1736937005000 [promptEntry]
           {| lastActivityAt := t_prompt; messageCount := 1;
              hasPendingToolUse := false; pendingToolIds := [] |}
           t_call [ATextBlock "Running them."; AToolUseBlock "toolu_01" "Bash"]
           "toolu_01" t_result "ok").
  - reflexivity.
  - reflexivity.
  - intros t Ht. vm_compute in Ht. injection Ht as <-. lia.
Defined.

Lemma lastRole_always_assistant_witness :
  Status.statusChanged
    (Some (Status.deriveStatus IsoDate.parse 1736937000000 [promptEntry]))
    (Status.deriveStatus IsoDate.parse 1736937001000 [promptEntry; resultEntry])
  = false.
Proof.
  apply (lastRole_always_assistant IsoDate.parse); reflexivity.
Defined.

End DeriveFacts.

Module StoreFacts.
Import Types StatusMachine.

Section WithParser.
Variable parseDate : string -> option Z.

Lemma alter_present (f : StatusContext -> StatusContext)
    (h : gmap Store.ref StatusContext) r c :
  h !! r = Some c -> alter f r h = <[r := f c]> h.
Proof.
  intros Hr. apply map_eq. intros i.
  destruct (decide (r = i)) as [<-|Hne].
  - by rewrite lookup_alter_eq, lookup_insert_eq, Hr.
  - by rewrite lookup_alter_ne, lookup_insert_ne.
Qed.

(** One [send] on the stored context is one [send] on its value. *)
Lemma send_refines a ev (h : gmap Store.ref StatusContext) c :
  h !! Store.context a = Some c ->
  Store.send a ev h
  = ({| Store.value := fst (send (Store.value a, c) ev);
        Store.context := Store.context a |},
     <[Store.context a := snd (send (Store.value a, c) ev)]> h).
Proof.
  intros Hc. unfold Store.send, send. cbn [fst snd].
  destruct (statusMachine (Store.value a) ev) as [t|].
  - cbn [fst snd]. by rewrite (alter_present _ _ _ _ Hc).
  - cbn [fst snd]. rewrite (insert_id _ _ _ Hc). by destruct a.
Qed.

Lemma feed_refines a entry (h : gmap Store.ref StatusContext) c :
  h !! Store.context a = Some c ->
  Store.feed (a, h) entry
  = ({| Store.value := fst (feed (Store.value a, c) entry);
        Store.context := Store.context a |},
     <[Store.context a := snd (feed (Store.value a, c) entry)]> h).
Proof.
  intros Hc. unfold Store.feed, feed. cbn [fst snd].
  destruct (logEntryToEvent entry) as [ev|].
  - by apply send_refines.
  - cbn [fst snd]. rewrite (insert_id _ _ _ Hc). by destruct a.
Qed.

Lemma replay_refines entries a (h : gmap Store.ref StatusContext) c :
  h !! Store.context a = Some c ->
  fold_left Store.feed entries (a, h)
  = ({| Store.value := fst (replay entries (Store.value a, c));
        Store.context := Store.context a |},
     <[Store.context a := snd (replay entries (Store.value a, c))]> h).
Proof.
  revert a h c. induction entries as [|e es IH]; intros a h c Hc.
  - cbn. rewrite (insert_id _ _ _ Hc). by destruct a.
  - cbn [fold_left]. rewrite (feed_refines _ _ _ _ Hc).
    erewrite IH by apply lookup_insert_eq.
    cbn [Store.value Store.context]. rewrite insert_insert_eq.
    unfold replay at 3 4. cbn [fold_left].
    by destruct (feed (Store.value a, c) e).
Qed.

(** The derivation on the store allocates one context object, leaves in
    it the context that the value-passing derivation computes, and
    returns the same status. *)
Lemma derive_refines now entries (h : gmap Store.ref StatusContext) :
  Store.deriveStatusFromMachine parseDate now entries h
  = ((fst (deriveStatusFromMachine parseDate now entries), fresh (dom h)),
     <[fresh (dom h) := snd (deriveStatusFromMachine parseDate now entries)]> h).
Proof.
  unfold Store.deriveStatusFromMachine, Store.createActor, deriveStatusFromMachine.
  erewrite replay_refines by apply lookup_insert_eq.
  cbn [fst snd Store.value Store.context]. rewrite insert_insert_eq.
  rewrite lookup_total_insert_eq. fold createActor.
  destruct (replay entries createActor) as [s c] eqn:E. cbn [fst snd].
  destruct (timeoutEvent parseDate now (s, c)) as [ev|]; [|reflexivity].
  erewrite send_refines by apply lookup_insert_eq.
  cbn [fst snd Store.value Store.context]. by rewrite insert_insert_eq.
Qed.

(** C6. Status derivation is deterministic.  Two evaluations over the
    same entries at the same instant give the same status and the same
    context (all four fields), whatever the heap each starts from; in
    particular when the second runs after the first, on the heap the
    first left behind.  Each evaluation works on a context object of its
    own: the second leaves the result of the first, and every object
    that existed before, untouched. *)
Theorem derivation_deterministic now entries (h h' : gmap Store.ref StatusContext) :
  let run1 := Store.deriveStatusFromMachine parseDate now entries h in
  let run2 := Store.deriveStatusFromMachine parseDate now entries h' in
  let again := Store.deriveStatusFromMachine parseDate now entries (snd run1) in
  let pure := deriveStatusFromMachine parseDate now entries in
  (fst (fst run1) = fst pure /\ snd run1 !! snd (fst run1) = Some (snd pure))
  /\ (fst (fst run1) = fst (fst run2)
      /\ snd run1 !! snd (fst run1) = snd run2 !! snd (fst run2))
  /\ (fst (fst run1) = fst (fst again)
      /\ snd run1 !! snd (fst run1) = snd again !! snd (fst again)
      /\ snd (fst run1) <> snd (fst again)
      /\ snd again !! snd (fst run1) = snd run1 !! snd (fst run1))
  /\ (forall r, r ∈ dom h -> snd run1 !! r = h !! r).
Proof.
  intros run1 run2 again pure. subst again.
  subst run1 run2. rewrite !derive_refines. cbn [fst snd]. fold pure.
  rewrite !lookup_insert_eq.
  assert (fresh (dom h) <> fresh (dom (<[fresh (dom h) := snd pure]> h))) as Hne.
  { intros Heq.
    apply (is_fresh (dom (<[fresh (dom h) := snd pure]> h))).
    rewrite <- Heq. rewrite dom_insert_L. set_solver. }
  assert (<[fresh (dom (<[fresh (dom h) := snd pure]> h)) := snd pure]>
            (<[fresh (dom h) := snd pure]> h) !! fresh (dom h)
          = Some (snd pure)) as Hkeep.
  { rewrite lookup_insert_ne by (intros E; apply Hne; by rewrite E).
    apply lookup_insert_eq. }
  split; [by split|]. split; [by split|]. split.
  - split; [reflexivity|]. split; [reflexivity|]. split; [exact Hne|exact Hkeep].
  - intros r Hr. rewrite lookup_insert_ne; [reflexivity|].
    intros <-. by apply is_fresh in Hr.
Qed.

End WithParser.

Lemma derivation_deterministic_witness :
  snd (Store.deriveStatusFromMachine IsoDate.parse 1736937005000
         [Examples.promptEntry] {[ 0%nat := initialContext ]}) !! 0%nat
  = Some initialContext.
Proof.
  rewrite (proj2 (proj2 (proj2
             (derivation_deterministic IsoDate.parse 1736937005000
                [Examples.promptEntry] {[ 0%nat := initialContext ]} ∅))) 0%nat).
  - reflexivity.
  - vm_compute. reflexivity.
Defined.

End StoreFacts.

Module WatcherFacts.
Import Types Watcher.

Lemma clearPendingPermission_cleared w sid :
  pendingPermissions (clearPendingPermission w sid) !! sid = None.
Proof.
  unfold clearPendingPermission.
  destruct (pendingPermissions w !! sid) eqn:E; [|exact E].
  cbn. apply lookup_delete_eq.
Qed.

Lemma clearStopSignal_cleared w sid :
  stopSignals (clearStopSignal w sid) !! sid = None.
Proof.
  unfold clearStopSignal.
  destruct (stopSignals w !! sid) eqn:E; [|exact E].
  cbn. apply lookup_delete_eq.
Qed.

Lemma clearStopSignal_permissions w sid :
  pendingPermissions (clearStopSignal w sid) = pendingPermissions w.
Proof. unfold clearStopSignal. by destruct (stopSignals w !! sid). Qed.

Lemma clearStopSignal_sessions w sid :
  sessions (clearStopSignal w sid) = sessions w.
Proof. unfold clearStopSignal. by destruct (stopSignals w !! sid). Qed.

Lemma clearPendingPermission_sessions w sid :
  sessions (clearPendingPermission w sid) = sessions w.
Proof. unfold clearPendingPermission. by destruct (pendingPermissions w !! sid). Qed.

Lemma clearPendingPermission_stops w sid :
  stopSignals (clearPendingPermission w sid) = stopSignals w.
Proof. unfold clearPendingPermission. by destruct (pendingPermissions w !! sid). Qed.

Lemma isToolResultEntry_some newEntries :
  existsb isToolResultEntry newEntries = true
  <-> exists ts blocks id c,
        UserEntry ts (ContentArray blocks) ∈ newEntries
        /\ UToolResultBlock id c ∈ blocks.
Proof.
  rewrite existsb_exists. split.
  - intros (e & Hin & He).
    destruct e as [ts [p|blocks]| | | |]; try discriminate.
    cbn in He. apply existsb_exists in He as (b & Hb & Hres).
    destruct b as [|id c|]; try discriminate.
    exists ts, blocks, id, c. split; by apply list_elem_of_In.
  - intros (ts & blocks & id & c & Hin & Hb).
    exists (UserEntry ts (ContentArray blocks)). split; [by apply list_elem_of_In|].
    cbn. apply existsb_exists. exists (UToolResultBlock id c).
    split; [by apply list_elem_of_In | reflexivity].
Qed.

Lemma isUserPromptEntry_some newEntries :
  existsb isUserPromptEntry newEntries = true
  <-> exists ts p, UserEntry ts (ContentString p) ∈ newEntries.
Proof.
  rewrite existsb_exists. split.
  - intros (e & Hin & He).
    destruct e as [ts [p|blocks]| | | |]; try discriminate.
    exists ts, p. by apply list_elem_of_In.
  - intros (ts & p & Hin).
    exists (UserEntry ts (ContentString p)). split; [by apply list_elem_of_In|reflexivity].
Qed.

(** A tool result among the new entries leaves no held permission signal. *)
Lemma clearResolvedSignals_permission w sid newEntries :
  existsb isToolResultEntry newEntries = true ->
  pendingPermissions (clearResolvedSignals w sid newEntries) !! sid = None.
Proof.
  intros Htool. unfold clearResolvedSignals. rewrite Htool. cbn [andb].
  assert (pendingPermissions
            (if bool_decide (is_Some (pendingPermissions w !! sid))
             then clearPendingPermission w sid else w) !! sid = None) as H1.
  { case_bool_decide as Hp; [apply clearPendingPermission_cleared|].
    by apply eq_None_not_Some. }
  destruct (_ && _); [|exact H1].
  by rewrite clearStopSignal_permissions.
Qed.

(** A user prompt among the new entries leaves no held stop signal. *)
Lemma clearResolvedSignals_stop w sid newEntries :
  existsb isUserPromptEntry newEntries = true ->
  stopSignals (clearResolvedSignals w sid newEntries) !! sid = None.
Proof.
  intros Hprompt. unfold clearResolvedSignals. rewrite Hprompt. cbn [andb].
  case_bool_decide as Hs; [apply clearStopSignal_cleared|].
  by apply eq_None_not_Some.
Qed.

Lemma clearResolvedSignals_sessions w sid newEntries :
  sessions (clearResolvedSignals w sid newEntries) = sessions w.
Proof.
  unfold clearResolvedSignals.
  repeat match goal with
         | |- context [if ?b then _ else _] => destruct b
         end;
    rewrite ?clearStopSignal_sessions, ?clearPendingPermission_sessions; reflexivity.
Qed.

(** C3. Processing a stop signal for a session leaves no held permission
    signal for it and, if the session is tracked, sets its status to
    waiting with the pending flag false.  Processing an ended signal
    leaves neither a held permission nor a held stop signal for it and, if
    the session is tracked, sets its status to idle with the pending flag
    false.  Processing a permission signal stores it and, if the session
    is tracked, sets its status to waiting with the pending flag true.
    Without a tracked session the session map is unchanged. *)
Theorem signal_overrides w sid :
  (forall sig,
      let w' := handleSignalFile w (Some (StopFile sid (Some sig))) in
      pendingPermissions w' !! sid = None
      /\ stopSignals w' !! sid = Some sig
      /\ (forall s, sessions w !! sid = Some s ->
           exists s', sessions w' !! sid = Some s'
                      /\ Types.status (status s') = st_waiting
                      /\ Types.hasPendingToolUse (status s') = false
                      /\ pendingPermission s' = None)
      /\ (sessions w !! sid = None -> sessions w' = sessions w))
  /\ (forall sig,
        let w' := handleSignalFile w (Some (EndedFile sid (Some sig))) in
        pendingPermissions w' !! sid = None
        /\ stopSignals w' !! sid = None
        /\ endedSignals w' !! sid = Some sig
        /\ (forall s, sessions w !! sid = Some s ->
             exists s', sessions w' !! sid = Some s'
                        /\ Types.status (status s') = st_idle
                        /\ Types.hasPendingToolUse (status s') = false
                        /\ pendingPermission s' = None)
        /\ (sessions w !! sid = None -> sessions w' = sessions w))
  /\ (forall perm,
        let w' := handleSignalFile w (Some (PermissionFile sid (Some perm))) in
        pendingPermissions w' !! sid = Some perm
        /\ (forall s, sessions w !! sid = Some s ->
             exists s', sessions w' !! sid = Some s'
                        /\ Types.status (status s') = st_waiting
                        /\ Types.hasPendingToolUse (status s') = true
                        /\ pendingPermission s' = Some perm)
        /\ (sessions w !! sid = None -> sessions w' = sessions w)).
Proof.
  split; [|split]; intros sig w'; subst w'; unfold handleSignalFile;
    destruct (sessions w !! sid) as [s0|] eqn:Es;
    cbn [pendingPermissions stopSignals endedSignals sessions];
    rewrite ?lookup_delete_eq, ?lookup_insert_eq;
    repeat (split; [reflexivity|]);
    (split; [|try discriminate; reflexivity]).
  all: intros s Hs; try discriminate Hs.
  all: eexists; split; [reflexivity|]; by repeat split.
Qed.

(** The signal handler overrides [status] and [hasPendingToolUse] only, so
    the role of a stored status stays what [deriveStatus] wrote. *)
Lemma handleSignalFile_role w parsed :
  storedRoleAssistant w -> storedRoleAssistant (handleSignalFile w parsed).
Proof.
  unfold storedRoleAssistant. intros Hw.
  destruct parsed as [[sid [d|]|sid [d|]|sid [d|]]|]; cbn [handleSignalFile];
    try exact Hw;
    destruct (sessions w !! sid) as [s|] eqn:Es; cbn [sessions]; try exact Hw;
    (apply map_Forall_insert_2; [|exact Hw]);
    cbn; exact (Hw sid s Es).
Qed.

Section WithEnvironment.
Variable parseDate : string -> option Z.
Variable extractSessionId : string -> string.
Variable extractEncodedDir : string -> string.
Variable extractMetadata : list LogEntry -> option SessionMetadata.

(** What a pass stores when it gets as far as deriving the status: the
    session exists already and there are new entries, or the session is
    new and its metadata can be extracted. *)
Lemma handleFile_stored w path newEntries newPosition git now :
  let sid := extractSessionId path in
  let w' := handleFile parseDate extractSessionId extractEncodedDir extractMetadata
              w path (TailOk newEntries newPosition) git now in
  let w2 := clearResolvedSignals w sid newEntries in
  let allEntries :=
    match sessions w !! sid with
    | Some s => (entries s ++ newEntries)%list
    | None => newEntries
    end in
  let derived := Status.deriveStatus parseDate now allEntries in
  newEntries <> [] ->
  (is_Some (sessions w !! sid) \/ is_Some (extractMetadata newEntries)) ->
  pendingPermissions w' = pendingPermissions w2
  /\ stopSignals w' = stopSignals w2
  /\ exists s',
      sessions w' !! sid = Some s'
      /\ entries s' = allEntries
      /\ pendingPermission s' = pendingPermissions w2 !! sid
      /\ status s' = match pendingPermissions w2 !! sid with
                     | Some _ => overrideStatus derived st_waiting true
                     | None => derived
                     end
      /\ hasStopSignal s' = Some (bool_decide (is_Some (stopSignals w2 !! sid))).
Proof.
  intros sid w' w2 allEntries derived Hne Hgo.
  subst w'. unfold handleFile. fold sid.
  assert ((Z.of_nat (length newEntries) =? 0) = false) as ->.
  { destruct newEntries; [contradiction | reflexivity]. }
  cbn [andb].
  fold allEntries. fold w2.
  destruct (sessions w !! sid) as [s|] eqn:Es.
  - cbn [pendingPermissions stopSignals sessions].
    split; [reflexivity|]. split; [reflexivity|].
    eexists. split; [apply lookup_insert_eq|].
    cbn [entries pendingPermission status hasStopSignal]. by repeat split.
  - destruct Hgo as [[? Hx]|[md Hmd]]; [discriminate|].
    subst allEntries. rewrite Hmd.
    cbn [pendingPermissions stopSignals sessions].
    split; [reflexivity|]. split; [reflexivity|].
    eexists. split; [apply lookup_insert_eq|].
    cbn [entries pendingPermission status hasStopSignal]. by repeat split.
Qed.

(** C9. In one pass of the change handler that reaches status derivation
    (the session is already tracked, or it is new and its metadata can
    be extracted): if a new entry is a user entry with a tool-result
    block, then after the pass no permission signal is held for the
    session and the stored session has the status derived from the log
    over all entries, with no permission override and no pending
    permission; and if a new entry is a plain-text user prompt, then
    after the pass no stop signal is held for the session and the stored
    session has its stop flag false. *)
Theorem new_entries_clear_signals w path newEntries newPosition git now :
  let sid := extractSessionId path in
  let w' := handleFile parseDate extractSessionId extractEncodedDir extractMetadata
              w path (TailOk newEntries newPosition) git now in
  let allEntries :=
    match sessions w !! sid with
    | Some s => (entries s ++ newEntries)%list
    | None => newEntries
    end in
  (is_Some (sessions w !! sid) \/ is_Some (extractMetadata newEntries)) ->
  ((exists ts blocks id c,
       UserEntry ts (ContentArray blocks) ∈ newEntries
       /\ UToolResultBlock id c ∈ blocks) ->
   pendingPermissions w' !! sid = None
   /\ exists s',
       sessions w' !! sid = Some s'
       /\ entries s' = allEntries
       /\ status s' = Status.deriveStatus parseDate now allEntries
       /\ pendingPermission s' = None)
  /\ ((exists ts p, UserEntry ts (ContentString p) ∈ newEntries) ->
      stopSignals w' !! sid = None
      /\ exists s',
          sessions w' !! sid = Some s'
          /\ hasStopSignal s' = Some false).
Proof.
  intros sid w' allEntries Hgo. split.
  - intros Htool. apply isToolResultEntry_some in Htool.
    assert (newEntries <> []) as Hne by (intros ->; discriminate Htool).
    destruct (handleFile_stored w path newEntries newPosition git now Hne Hgo)
      as (Hpp & _ & s' & Hs' & Hent & Hperm & Hst & _).
    pose proof (clearResolvedSignals_permission w sid newEntries Htool) as Hclear.
    fold sid in Hpp, Hs', Hperm, Hst. rewrite Hclear in Hperm, Hst.
    split; [subst w'; by rewrite Hpp|].
    exists s'. by repeat split.
  - intros Hprompt. apply isUserPromptEntry_some in Hprompt.
    assert (newEntries <> []) as Hne by (intros ->; discriminate Hprompt).
    destruct (handleFile_stored w path newEntries newPosition git now Hne Hgo)
      as (_ & Hss & s' & Hs' & _ & _ & _ & Hflag).
    pose proof (clearResolvedSignals_stop w sid newEntries Hprompt) as Hclear.
    fold sid in Hss, Hs', Hflag. rewrite Hclear in Hflag.
    split; [subst w'; by rewrite Hss|].
    exists s'. split; [exact Hs'|]. rewrite Hflag. reflexivity.
Qed.

(** The change handler stores a derived status, overridden or not. *)
Lemma handleFile_role w path read git now :
  storedRoleAssistant w ->
  storedRoleAssistant
    (handleFile parseDate extractSessionId extractEncodedDir extractMetadata
       w path read git now).
Proof.
  unfold storedRoleAssistant. intros Hw. unfold handleFile.
  destruct read as [newEntries newPosition|code].
  - destruct (_ && _); [exact Hw|].
    destruct (match sessions w !! extractSessionId path with
              | Some s => _ | None => _ end) as [md|]; [|exact Hw].
    cbn [sessions]. rewrite clearResolvedSignals_sessions.
    apply map_Forall_insert_2; [|exact Hw].
    cbn [status]. by destruct (pendingPermissions _ !! _).
  - destruct (String.eqb code "ENOENT"); exact Hw.
Qed.

End WithEnvironment.

Import Examples.

Lemma signal_overrides_witness :
  exists s',
    sessions (handleSignalFile watching (Some (StopFile "7f3c2a" (Some heldStop))))
      !! "7f3c2a" = Some s'
    /\ Types.status (status s') = st_waiting
    /\ Types.hasPendingToolUse (status s') = false
    /\ pendingPermission s' = None.
Proof.
  apply (proj1 (signal_overrides watching "7f3c2a") heldStop) with (s := trackedSession).
  reflexivity.
Defined.

Lemma new_entries_clear_signals_witness :
  pendingPermissions
    (handleFile IsoDate.parse sessionIdOf encodedDirOf metadataOf
       watching logPath (TailOk [resultEntry] 768) gitMain 1736937005000)
    !! "7f3c2a" = None.
Proof.
  apply (new_entries_clear_signals IsoDate.parse sessionIdOf encodedDirOf metadataOf
           watching logPath [resultEntry] 768 gitMain 1736937005000).
  - left. exists trackedSession. reflexivity.
  - exists t_result, [UToolResultBlock "toolu_01" "ok"], "toolu_01", "ok".
    split; apply list_elem_of_here.
Defined.

End WatcherFacts.

(* ===================================================================== *)
(** * Further properties of the replay and of the derived status *)
(* ===================================================================== *)

Module ReplayFacts.
Import Types StatusMachine ExtractionSpec ReplayShape TypeGuards.
Import StatusMachineFacts DeriveFacts.

(** The events that log entries give: never a synthetic timeout, and
    tool events always carry at least one identifier. *)
Lemma event_shape entry ev :
  logEntryToEvent entry = Some ev ->
  match ev with
  | ASSISTANT_TOOL_USE _ ids | TOOL_RESULT _ ids => ids <> []
  | APPROVAL_TIMEOUT | STALE_TIMEOUT => False
  | _ => True
  end.
Proof.
  destruct entry as [ts [p|blocks]|ts content|sub ts|ts|]; cbn [logEntryToEvent].
  - by intros [= <-].
  - destruct (toolResultIds blocks) as [|i l] eqn:E; cbn.
    + destruct (existsb isText blocks); [by intros [= <-] | discriminate].
    + by intros [= <-].
  - destruct (List.filter needsApproval content) as [|b l] eqn:E; cbn.
    + by intros [= <-].
    + by intros [= <-].
  - destruct (_ || _); [by intros [= <-] | discriminate].
  - discriminate.
  - discriminate.
Qed.

Lemma createActor_coherent : coherent createActor.
Proof. unfold coherent. cbn. repeat split; try discriminate; try tauto. Qed.

Lemma send_coherent a ev :
  match ev with
  | ASSISTANT_TOOL_USE _ ids | TOOL_RESULT _ ids => ids <> []
  | APPROVAL_TIMEOUT | STALE_TIMEOUT => False
  | _ => True
  end ->
  coherent a -> coherent (send a ev).
Proof.
  destruct a as [s c]. unfold coherent. cbn [fst snd].
  intros Hev (Hs & Hflag & Hidle).
  destruct s; [| contradiction | ];
    destruct ev; try contradiction; unfold send;
    cbn [statusMachine fst snd target actions default
         lastActivityAt messageCount hasPendingToolUse pendingToolIds];
    try (destruct (Hidle eq_refl) as [Hf Hi]);
    repeat split; try discriminate; try tauto; try congruence.
  all: unfold resolveTools;
    cbn [lastActivityAt messageCount hasPendingToolUse pendingToolIds];
    rewrite nonempty_length; try apply bool_decide_eq_true.
Qed.

Lemma feed_coherent a entry : coherent a -> coherent (feed a entry).
Proof.
  intros Ha. unfold feed.
  destruct (logEntryToEvent entry) as [ev|] eqn:E; [|exact Ha].
  apply send_coherent; [|exact Ha]. by apply (event_shape entry).
Qed.

Lemma replay_coherent_from entries a : coherent a -> coherent (replay entries a).
Proof.
  revert a. induction entries as [|e es IH]; intros a Ha; [exact Ha|].
  rewrite replay_cons. apply IH, feed_coherent, Ha.
Qed.

(** X1. Whatever the entries, the replay never ends in
    [waiting_for_approval], its pending flag is set exactly when the set of
    pending identifiers is non-empty, and in [waiting_for_input] the flag is
    clear and the set is empty. *)
Theorem replay_coherent entries :
  let a := replay entries createActor in
  fst a <> waiting_for_approval
  /\ (hasPendingToolUse (snd a) = true <-> pendingToolIds (snd a) <> [])
  /\ (fst a = waiting_for_input ->
      hasPendingToolUse (snd a) = false /\ pendingToolIds (snd a) = []).
Proof. exact (replay_coherent_from entries createActor createActor_coherent). Qed.

Lemma replay_coherent_witness :
  hasPendingToolUse
    (snd (replay [Examples.promptEntry; Examples.callEntry;
                  SystemEntry "turn_duration" Examples.t_result] createActor)) = false.
Proof.
  apply (replay_coherent [Examples.promptEntry; Examples.callEntry;
                          SystemEntry "turn_duration" Examples.t_result]).
  reflexivity.
Defined.

Lemma toolResultIds_nil blocks :
  toolResultIds blocks = [] <-> existsb isToolResult blocks = false.
Proof.
  unfold toolResultIds. induction blocks as [|b bs IH]; [done|].
  destruct b; cbn; try exact IH. split; discriminate.
Qed.

(** The entries of [carriesNoSignal] are exactly those without an event. *)
Lemma carriesNoSignal_event entry :
  carriesNoSignal entry = true <-> logEntryToEvent entry = None.
Proof.
  destruct entry as [ts [p|blocks]|ts content|sub ts|ts|];
    cbn [carriesNoSignal logEntryToEvent]; try (split; [discriminate|discriminate]);
    try tauto.
  - destruct (toolResultIds blocks) as [|i l] eqn:E.
    + apply toolResultIds_nil in E. rewrite E. cbn.
      destruct (existsb isText blocks); simpl; split; congruence.
    + assert (existsb isToolResult blocks = true) as ->.
      { destruct (existsb isToolResult blocks) eqn:E'; [reflexivity|].
        apply toolResultIds_nil in E'. congruence. }
      cbn. split; discriminate.
  - destruct (List.filter needsApproval content); cbn; split; discriminate.
  - destruct (_ || _); cbn; split; congruence.
Qed.

Lemma replay_filter_signal entries a :
  replay (List.filter (fun e => negb (carriesNoSignal e)) entries) a
  = replay entries a.
Proof.
  revert a. induction entries as [|e es IH]; intros a; [reflexivity|].
  cbn [List.filter]. destruct (carriesNoSignal e) eqn:E; cbn [negb].
  - rewrite replay_cons, IH. unfold feed.
    by rewrite (proj1 (carriesNoSignal_event e) E).
  - by rewrite !replay_cons, IH.
Qed.

Lemma feed_count a entry :
  coherent a ->
  messageCount (snd a) + (if Watcher.isUserPromptEntry entry then 1 else 0)
  <= messageCount (snd (feed a entry))
  <= messageCount (snd a) + (if isMessageEntry entry then 1 else 0).
Proof.
  intros (Hs & _). destruct a as [s c]. cbn [fst snd] in *. unfold feed.
  destruct entry as [ts [p|blocks]|ts content|sub ts|ts|];
    cbn [logEntryToEvent Watcher.isUserPromptEntry isMessageEntry isUserEntry isAssistantEntry orb];
    repeat match goal with
           | |- context [if ?b then _ else _] =>
               lazymatch b with
               | true => fail | false => fail
               | _ => destruct b
               end
           end;
    destruct s; try contradiction; cbn; lia.
Qed.

Lemma replay_count entries a :
  coherent a ->
  messageCount (snd a) + Z.of_nat (length (List.filter Watcher.isUserPromptEntry entries))
  <= messageCount (snd (replay entries a))
  <= messageCount (snd a) + Z.of_nat (length (List.filter isMessageEntry entries)).
Proof.
  revert a. induction entries as [|e es IH]; intros a Ha.
  - cbn. lia.
  - rewrite replay_cons. pose proof (feed_count a e Ha) as Hf.
    specialize (IH (feed a e) (feed_coherent a e Ha)).
    cbn [List.filter].
    destruct (Watcher.isUserPromptEntry e), (isMessageEntry e); cbn [length]; lia.
Qed.

Lemma event_timestamp entry ev :
  logEntryToEvent entry = Some ev ->
  TransitionTable.eventTimestamp ev = entryTimestamp entry.
Proof.
  destruct entry as [ts [p|blocks]|ts content|sub ts|ts|]; cbn [logEntryToEvent entryTimestamp];
    repeat match goal with
           | |- context [if ?b then _ else _] => destruct b
           end;
    intros [= <-] || discriminate; reflexivity.
Qed.

Lemma send_activity a ev :
  lastActivityAt (snd (send a ev)) = lastActivityAt (snd a)
  \/ TransitionTable.eventTimestamp ev = Some (lastActivityAt (snd (send a ev))).
Proof. destruct a as [s c]. destruct s, ev; cbn; tauto. Qed.

Lemma replay_activity entries a :
  lastActivityAt (snd (replay entries a)) = lastActivityAt (snd a)
  \/ exists e, e ∈ entries
               /\ entryTimestamp e = Some (lastActivityAt (snd (replay entries a))).
Proof.
  revert a. induction entries as [|e es IH]; intros a; [by left|].
  rewrite replay_cons. destruct (IH (feed a e)) as [Heq|(e' & Hin & Hts)].
  - rewrite Heq. unfold feed.
    destruct (logEntryToEvent e) as [ev|] eqn:E; [|by left].
    destruct (send_activity a ev) as [H|H]; [by left|].
    right. exists e. split; [left|]. by rewrite <- (event_timestamp e ev E).
  - right. exists e'. split; [by right | exact Hts].
Qed.

Lemma requestedIn_cons e es id : requestedIn es id -> requestedIn (e :: es) id.
Proof.
  intros (ts & content & name & Hin & Hb & Hn).
  exists ts, content, name. split; [by right | by split].
Qed.

Lemma send_pending entry a ev :
  logEntryToEvent entry = Some ev ->
  forall id, id ∈ pendingToolIds (snd (send a ev)) ->
             id ∈ pendingToolIds (snd a) \/ requestedIn [entry] id.
Proof.
  intros Hev id. destruct a as [s c].
  destruct ev as [t|t ids|t|t ids|t| |];
    destruct s; unfold send;
    cbn [statusMachine fst snd target actions default pendingToolIds];
    try tauto; try (intros H; by apply not_elem_of_nil in H).
  - unfold resolveTools. cbn [pendingToolIds]. rewrite remaining_filter.
    intros H. apply list_elem_of_filter in H. tauto.
  - unfold resolveTools. cbn [pendingToolIds]. rewrite remaining_filter.
    intros H. apply list_elem_of_filter in H. tauto.
  - intros Hid. right.
    destruct entry as [ts [p|blocks]|ts content|sub ts|ts|]; cbn [logEntryToEvent] in Hev;
      repeat match type of Hev with
             | context [if ?b then _ else _] => destruct b
             end; try discriminate.
    rewrite approvalIds_filter in Hev. injection Hev as <- <-.
    apply approvalIds_elem in Hid as (name & Hb & Hn).
    exists ts, content, name. split; [left|]. split; [exact Hb|].
    by rewrite <- autoApproved_names.
Qed.

Lemma replay_pending entries a id :
  id ∈ pendingToolIds (snd (replay entries a)) ->
  id ∈ pendingToolIds (snd a) \/ requestedIn entries id.
Proof.
  revert a. induction entries as [|e es IH]; intros a Hid; [by left|].
  rewrite replay_cons in Hid. destruct (IH _ Hid) as [H|H].
  - unfold feed in H. destruct (logEntryToEvent e) as [ev|] eqn:E; [|by left].
    destruct (send_pending e a ev E id H) as [H'|(ts & content & name & Hin & Hb & Hn)];
      [by left|].
    right. exists ts, content, name. apply list_elem_of_singleton in Hin.
    split; [rewrite Hin; left | by split].
  - right. by apply requestedIn_cons.
Qed.

(** X10. A tool result resolves only the calls it names.  After entries
    that leave the machine in [working], an assistant entry requesting the
    calls [ids] followed by a user entry with tool results for [rs] leaves
    the machine in [working] with exactly the calls of [ids] outside [rs]
    pending; the pending flag is clear exactly when every requested call has
    its result. *)
Theorem partial_tool_results pre c t1 content t2 blocks :
  replay pre createActor = (working, c) ->
  approvalIds content <> [] ->
  resolvedIds blocks <> [] ->
  let a := replay (pre ++ [AssistantEntry t1 content;
                           UserEntry t2 (ContentArray blocks)])%list createActor in
  fst a = working
  /\ lastActivityAt (snd a) = t2
  /\ messageCount (snd a) = messageCount c + 2
  /\ (forall id, id ∈ pendingToolIds (snd a)
                 <-> id ∈ approvalIds content /\ id ∉ resolvedIds blocks)
  /\ (hasPendingToolUse (snd a) = false
      <-> forall id, id ∈ approvalIds content -> id ∈ resolvedIds blocks).
Proof.
  intros Hpre Hids Hrs a. subst a.
  destruct (approvalIds content) as [|i ids] eqn:Ei; [contradiction|].
  destruct (resolvedIds blocks) as [|j rs] eqn:Ej; [contradiction|].
  rewrite replay_app, Hpre, !replay_cons.
  rewrite (feed_event _ _ _ (tool_use_event t1 content i ids Ei)).
  rewrite (feed_event _ _ _ (tool_result_event t2 blocks j rs Ej)).
  unfold send. cbn [statusMachine fst snd target actions default].
  unfold replay, resolveTools.
  cbn [fold_left fst snd lastActivityAt messageCount hasPendingToolUse pendingToolIds].
  rewrite nonempty_length, remaining_filter.
  split; [reflexivity|]. split; [reflexivity|]. split; [lia|]. split.
  - intros id. rewrite list_elem_of_filter. tauto.
  - rewrite bool_decide_eq_false. split.
    + intros Hnil id Hid. destruct (decide (id ∈ j :: rs)) as [|Hout]; [done|].
      exfalso. apply Hnil. intros Hempty.
      assert (id ∈ filter (fun x => x ∉ j :: rs) (i :: ids)) as Hf
        by (apply list_elem_of_filter; by split).
      rewrite Hempty in Hf. by apply not_elem_of_nil in Hf.
    + intros Hall Hne.
      destruct (filter (fun x => x ∉ j :: rs) (i :: ids)) as [|x l] eqn:Ef; [done|].
      assert (x ∈ filter (fun x => x ∉ j :: rs) (i :: ids)) as Hx by (rewrite Ef; left).
      apply list_elem_of_filter in Hx as [Hout Hin]. by apply Hout, Hall.
Qed.

Section WithParser.
Variable parseDate : string -> option Z.

(** The derivation in terms of the replayed actor. *)
Lemma derive_of_replay now entries s c :
  replay entries createActor = (s, c) ->
  deriveStatusFromMachine parseDate now entries
  = match s with
    | working =>
        if hasPendingToolUse c then
          if exceeds (timeSinceActivity parseDate now c) APPROVAL_TIMEOUT_MS
          then (waiting_for_approval, c) else (working, c)
        else
          if exceeds (timeSinceActivity parseDate now c) STALE_TIMEOUT_MS
          then (waiting_for_input, c) else (working, c)
    | _ => (s, c)
    end.
Proof.
  intros Hrep. unfold deriveStatusFromMachine. rewrite Hrep.
  unfold timeoutEvent. cbn [fst snd].
  destruct s; cbn [isWorking andb]; try reflexivity.
  destruct c as [la mc [|] ids]; cbn [hasPendingToolUse negb andb].
  - destruct (exceeds _ APPROVAL_TIMEOUT_MS); reflexivity.
  - destruct (exceeds _ STALE_TIMEOUT_MS); reflexivity.
Qed.

Lemma exceeds_mono now now' c y :
  now <= now' ->
  exceeds (timeSinceActivity parseDate now c) y = true ->
  exceeds (timeSinceActivity parseDate now' c) y = true.
Proof.
  intros Hle H. apply timeSince_exceeds in H as (t & Ht & Hgt).
  apply timeSince_exceeds. exists t. split; [exact Ht | lia].
Qed.

(** X2. The derived result is [waiting] with the pending flag set exactly
    when the machine ended in [waiting_for_approval], that is exactly when
    the status key is [waiting:tool]; and then some tool call is pending. *)
Theorem approval_is_waiting_tool now entries :
  let r := deriveStatusFromMachine parseDate now entries in
  let res := Status.deriveStatus parseDate now entries in
  (fst r = waiting_for_approval
   <-> Types.status res = st_waiting /\ Types.hasPendingToolUse res = true)
  /\ (Status.getStatusKey res = "waiting:tool" <-> fst r = waiting_for_approval)
  /\ (fst r = waiting_for_approval -> pendingToolIds (snd r) <> []).
Proof.
  intros r res. subst res. unfold Status.deriveStatus. fold r.
  pose proof (replay_coherent_from entries createActor createActor_coherent)
    as (Hs & Hflag & Hidle).
  destruct (replay entries createActor) as [s c] eqn:Hrep. cbn [fst snd] in *.
  subst r. rewrite (derive_of_replay now entries s c Hrep).
  unfold Status.getStatusKey, machineStatusToResult.
  destruct s; [| contradiction |].
  - destruct (hasPendingToolUse c) eqn:Hp.
    + destruct (exceeds _ APPROVAL_TIMEOUT_MS); cbn; rewrite ?Hp;
        repeat split; try tauto; try discriminate; try (intros [? ?]; discriminate).
    + destruct (exceeds _ STALE_TIMEOUT_MS); cbn; rewrite ?Hp;
        repeat split; try tauto; try discriminate; try (intros [? ?]; discriminate).
  - destruct (Hidle eq_refl) as [Hp Hi]. cbn. rewrite Hp.
    repeat split; try tauto; try discriminate; try (intros [? ?]; discriminate).
Qed.

(** X3. When the replay ends in [working] with nothing pending, the
    derivation ends in [waiting_for_input] exactly when more than 60000 ms
    have passed since the last activity; the context is the replayed one in
    both cases, and at 60000 ms or less the status stays [working]. *)
Theorem stale_timeout_threshold now entries c :
  replay entries createActor = (working, c) ->
  hasPendingToolUse c = false ->
  let exceeded :=
    exists t, lastActivityTime parseDate c = Some t /\ 60000 < now - t in
  (fst (deriveStatusFromMachine parseDate now entries) = waiting_for_input
   <-> exceeded)
  /\ snd (deriveStatusFromMachine parseDate now entries) = c
  /\ (~ exceeded -> deriveStatusFromMachine parseDate now entries = (working, c))
  /\ (Types.status (Status.deriveStatus parseDate now entries) = st_waiting
      <-> exceeded).
Proof.
  intros Hrep Hp exceeded.
  assert (exceeds (timeSinceActivity parseDate now c) STALE_TIMEOUT_MS = true
          <-> exceeded) as Hex by apply timeSince_exceeds.
  unfold Status.deriveStatus.
  rewrite (derive_of_replay now entries working c Hrep), Hp.
  destruct (exceeds _ STALE_TIMEOUT_MS) eqn:E; cbn.
  - assert exceeded by (by apply Hex). repeat split; tauto.
  - assert (~ exceeded) by (intros He; apply Hex in He; discriminate).
    repeat split; try tauto; try discriminate.
Qed.

(** X4. When the last-activity timestamp is not empty and does not parse
    as a date, no timeout ever applies: at every instant the derivation
    returns the replayed state and context. *)
Theorem unparseable_timestamp_no_timeout now entries :
  lastActivityTime parseDate (snd (replay entries createActor)) = None ->
  deriveStatusFromMachine parseDate now entries = replay entries createActor.
Proof.
  intros Hnan. destruct (replay entries createActor) as [s c] eqn:Hrep.
  rewrite (derive_of_replay now entries s c Hrep). cbn [snd] in Hnan.
  unfold timeSinceActivity. rewrite Hnan. cbn [exceeds].
  destruct s; try reflexivity. by destruct (hasPendingToolUse c).
Qed.

(** X5. Timeouts are permanent: once the derivation over some entries
    gives a status other than [working], it gives the same state and
    context at every later instant. *)
Theorem timed_out_stays now now' entries :
  now <= now' ->
  fst (deriveStatusFromMachine parseDate now entries) <> working ->
  deriveStatusFromMachine parseDate now' entries
  = deriveStatusFromMachine parseDate now entries.
Proof.
  intros Hle. destruct (replay entries createActor) as [s c] eqn:Hrep.
  rewrite !(derive_of_replay _ entries s c Hrep).
  destruct s; try reflexivity.
  destruct (hasPendingToolUse c).
  - destruct (exceeds (timeSinceActivity parseDate now c) APPROVAL_TIMEOUT_MS) eqn:E.
    + by rewrite (exceeds_mono now now' c _ Hle E).
    + cbn. congruence.
  - destruct (exceeds (timeSinceActivity parseDate now c) STALE_TIMEOUT_MS) eqn:E.
    + by rewrite (exceeds_mono now now' c _ Hle E).
    + cbn. congruence.
Qed.

(** X6. Entries that carry no signal (queue operations, file-history
    snapshots, other system entries, user content arrays without a tool
    result or a text block) can be dropped from the list, wherever they
    stand, without changing the derived state and context. *)
Theorem signal_free_entries_ignored now entries :
  deriveStatusFromMachine parseDate now
    (List.filter (fun e => negb (carriesNoSignal e)) entries)
  = deriveStatusFromMachine parseDate now entries.
Proof. unfold deriveStatusFromMachine. by rewrite replay_filter_signal. Qed.

Lemma timeout_keeps_count now entries :
  messageCount (snd (deriveStatusFromMachine parseDate now entries))
  = messageCount (snd (replay entries createActor)).
Proof.
  destruct (replay entries createActor) as [s c] eqn:Hrep.
  rewrite (derive_of_replay now entries s c Hrep).
  destruct s; try reflexivity.
  destruct (hasPendingToolUse c);
    match goal with |- context [exceeds ?x ?y] => destruct (exceeds x y) end;
    reflexivity.
Qed.

(** X7. The derived message count lies between the number of plain-text
    user prompts and the number of user and assistant entries of the list. *)
Theorem messageCount_bounds now entries :
  Z.of_nat (length (List.filter Watcher.isUserPromptEntry entries))
  <= messageCount (snd (deriveStatusFromMachine parseDate now entries))
  <= Z.of_nat (length (List.filter isMessageEntry entries)).
Proof.
  rewrite timeout_keeps_count.
  pose proof (replay_count entries createActor createActor_coherent) as H.
  cbn [createActor snd messageCount initialContext] in H. lia.
Qed.

Lemma timeout_keeps_activity now entries :
  lastActivityAt (snd (deriveStatusFromMachine parseDate now entries))
  = lastActivityAt (snd (replay entries createActor))
  /\ pendingToolIds (snd (deriveStatusFromMachine parseDate now entries))
     = pendingToolIds (snd (replay entries createActor)).
Proof.
  destruct (replay entries createActor) as [s c] eqn:Hrep.
  rewrite (derive_of_replay now entries s c Hrep).
  destruct s; try (split; reflexivity).
  destruct (hasPendingToolUse c);
    match goal with |- context [exceeds ?x ?y] => destruct (exceeds x y) end;
    split; reflexivity.
Qed.

(** X8. The derived last-activity timestamp is never invented: it is empty
    (no entry was taken up) or the timestamp of an entry of the list. *)
Theorem lastActivity_from_entries now entries :
  let ts := lastActivityAt (snd (deriveStatusFromMachine parseDate now entries)) in
  ts = "" \/ exists e, e ∈ entries /\ entryTimestamp e = Some ts.
Proof.
  intros ts. subst ts. rewrite (proj1 (timeout_keeps_activity now entries)).
  destruct (replay_activity entries createActor) as [H|H]; [left; exact H | right; exact H].
Qed.

(** X9. Every identifier the derivation reports as pending is the
    identifier of a tool call, in an assistant entry of the list, whose tool
    is not auto-approved: an auto-approved call is never pending. *)
Theorem pending_ids_requested now entries id :
  id ∈ pendingToolIds (snd (deriveStatusFromMachine parseDate now entries)) ->
  requestedIn entries id.
Proof.
  rewrite (proj2 (timeout_keeps_activity now entries)). intros Hid.
  destruct (replay_pending entries createActor id Hid) as [H|H]; [|exact H].
  by apply not_elem_of_nil in H.
Qed.

(** X11. A turn-end marker ([turn_duration] or [stop_hook_summary]) as the
    last entry settles the status at every instant: the machine is in
    [waiting_for_input] with nothing pending, the last activity is the
    marker's timestamp and the message count is left as it was. *)
Theorem turn_end_settles now entries sub ts :
  sub = "turn_duration" \/ sub = "stop_hook_summary" ->
  deriveStatusFromMachine parseDate now (entries ++ [SystemEntry sub ts])%list
  = (waiting_for_input,
     {| lastActivityAt := ts;
        messageCount := messageCount (snd (replay entries createActor));
        hasPendingToolUse := false; pendingToolIds := [] |})
  /\ Types.status
       (Status.deriveStatus parseDate now (entries ++ [SystemEntry sub ts])%list)
     = st_waiting.
Proof.
  intros Hsub.
  assert (logEntryToEvent (SystemEntry sub ts) = Some (TURN_END ts)) as Hev.
  { destruct Hsub as [-> | ->]; reflexivity. }
  pose proof (replay_coherent_from entries createActor createActor_coherent)
    as (Hs & _ & Hidle).
  assert (replay (entries ++ [SystemEntry sub ts])%list createActor
          = (waiting_for_input,
             {| lastActivityAt := ts;
                messageCount := messageCount (snd (replay entries createActor));
                hasPendingToolUse := false; pendingToolIds := [] |})) as Hrep.
  { rewrite replay_app, replay_cons, (feed_event _ _ _ Hev).
    destruct (replay entries createActor) as [s c]. cbn [fst snd] in *.
    destruct s; [reflexivity | contradiction |].
    destruct (Hidle eq_refl) as [Hp Hi]. unfold send, replay. cbn.
    by rewrite Hp, Hi. }
  unfold Status.deriveStatus.
  rewrite (derive_of_replay now _ _ _ Hrep). split; reflexivity.
Qed.

(** X12. A plain-text user prompt as the last entry starts a turn: the
    replay ends in [working] with nothing pending, one more message counted
    and the prompt's timestamp as last activity; the derived pending flag is
    false at every instant. *)
Theorem prompt_starts_turn entries ts p :
  replay (entries ++ [UserEntry ts (ContentString p)])%list createActor
  = (working,
     {| lastActivityAt := ts;
        messageCount := messageCount (snd (replay entries createActor)) + 1;
        hasPendingToolUse := false; pendingToolIds := [] |})
  /\ forall now,
       Types.hasPendingToolUse
         (Status.deriveStatus parseDate now
            (entries ++ [UserEntry ts (ContentString p)])%list) = false.
Proof.
  pose proof (replay_coherent_from entries createActor createActor_coherent)
    as (Hs & _ & Hidle).
  assert (replay (entries ++ [UserEntry ts (ContentString p)])%list createActor
          = (working,
             {| lastActivityAt := ts;
                messageCount := messageCount (snd (replay entries createActor)) + 1;
                hasPendingToolUse := false; pendingToolIds := [] |})) as Hrep.
  { rewrite replay_app, replay_cons.
    rewrite (feed_event _ (UserEntry ts (ContentString p)) (USER_PROMPT ts) eq_refl).
    destruct (replay entries createActor) as [s c]. cbn [fst snd] in *.
    destruct s; [reflexivity | contradiction |].
    destruct (Hidle eq_refl) as [Hp Hi]. unfold send, replay. cbn.
    by rewrite Hp, Hi. }
  split; [exact Hrep|]. intros now. unfold Status.deriveStatus.
  rewrite (derive_of_replay now _ _ _ Hrep).
  cbn [hasPendingToolUse].
  destruct (exceeds _ STALE_TIMEOUT_MS); reflexivity.
Qed.

End WithParser.

Lemma statusChanged_false prev next :
  Status.statusChanged (Some prev) next = false
  <-> Types.status prev = Types.status next
      /\ Types.lastRole prev = Types.lastRole next
      /\ Types.hasPendingToolUse prev = Types.hasPendingToolUse next.
Proof.
  unfold Status.statusChanged, Status.bool_neq.
  destruct (TypesFacts.SessionStatus_eqb_spec (Types.status prev) (Types.status next)),
           (TypesFacts.Role_eqb_spec (Types.lastRole prev) (Types.lastRole next)),
           (Bool.eqb_spec (Types.hasPendingToolUse prev) (Types.hasPendingToolUse next));
    cbn; split; try tauto; try discriminate; intros (? & ? & ?); contradiction.
Qed.

(** The derivation never gives [idle]. *)
Lemma derived_working_or_waiting parseDate now entries :
  Types.status (Status.deriveStatus parseDate now entries) = st_working
  \/ Types.status (Status.deriveStatus parseDate now entries) = st_waiting.
Proof.
  unfold Status.deriveStatus, machineStatusToResult. cbn [Types.status].
  destruct (isWorking _); [by left | by right].
Qed.

(** A derived status [working] means that no timeout applied, so it does
    not depend on the instant. *)
Lemma working_status_stable parseDate t now entries :
  Types.status (Status.deriveStatus parseDate t entries) = st_working ->
  Types.status (Status.deriveStatus parseDate now entries) = st_working ->
  Status.deriveStatus parseDate now entries = Status.deriveStatus parseDate t entries.
Proof.
  unfold Status.deriveStatus.
  destruct (replay entries createActor) as [s c] eqn:Hrep.
  rewrite !(derive_of_replay parseDate _ entries s c Hrep).
  destruct s; try reflexivity.
  destruct (hasPendingToolUse c).
  - destruct (exceeds (timeSinceActivity parseDate t c) APPROVAL_TIMEOUT_MS),
             (exceeds (timeSinceActivity parseDate now c) APPROVAL_TIMEOUT_MS);
      cbn; intros; congruence.
  - destruct (exceeds (timeSinceActivity parseDate t c) STALE_TIMEOUT_MS),
             (exceeds (timeSinceActivity parseDate now c) STALE_TIMEOUT_MS);
      cbn; intros; congruence.
Qed.

(** X13. [statusChanged] reports no change exactly when status, role and
    pending flag agree, whatever the timestamps and message counts; and
    when it reports none, the two results have the same status key. *)
Theorem unchanged_same_key prev next :
  (Status.statusChanged (Some prev) next = false
   <-> Types.status prev = Types.status next
       /\ Types.lastRole prev = Types.lastRole next
       /\ Types.hasPendingToolUse prev = Types.hasPendingToolUse next)
  /\ (Status.statusChanged (Some prev) next = false ->
      Status.getStatusKey prev = Status.getStatusKey next).
Proof.
  split; [apply statusChanged_false|].
  intros H. apply statusChanged_false in H as (Hs & _ & Hp).
  unfold Status.getStatusKey. by rewrite Hs, Hp.
Qed.

(** *** Instances *)

Import Examples MoreExamples.

Lemma approval_is_waiting_tool_witness :
  pendingToolIds
    (snd (deriveStatusFromMachine IsoDate.parse 1736937017001 [promptEntry; callEntry]))
  <> [].
Proof.
  apply (approval_is_waiting_tool IsoDate.parse 1736937017001 [promptEntry; callEntry]).
  reflexivity.
Defined.

Lemma stale_timeout_threshold_witness :
  fst (deriveStatusFromMachine IsoDate.parse 1736937060001 [promptEntry])
  = waiting_for_input.
Proof.
  apply (stale_timeout_threshold IsoDate.parse 1736937060001 [promptEntry]
           {| lastActivityAt := t_prompt; messageCount := 1;
              hasPendingToolUse := false; pendingToolIds := [] |});
    [reflexivity | reflexivity |].
  exists 1736937000000. split; [reflexivity | lia].
Defined.

Lemma unparseable_timestamp_no_timeout_witness :
  deriveStatusFromMachine IsoDate.parse 1736937060001 [undatedPrompt]
  = (working,
     {| lastActivityAt := "yesterday"; messageCount := 1;
        hasPendingToolUse := false; pendingToolIds := [] |}).
Proof.
  rewrite (unparseable_timestamp_no_timeout IsoDate.parse 1736937060001 [undatedPrompt]);
    reflexivity.
Defined.

Lemma timed_out_stays_witness :
  deriveStatusFromMachine IsoDate.parse 1736937999999 [promptEntry; callEntry]
  = deriveStatusFromMachine IsoDate.parse 1736937017001 [promptEntry; callEntry].
Proof.
  apply (timed_out_stays IsoDate.parse 1736937017001 1736937999999).
  - lia.
  - vm_compute. discriminate.
Defined.

Lemma pending_ids_requested_witness :
  requestedIn [promptEntry; twoCallsEntry; resultEntry] "toolu_02".
Proof.
  apply (pending_ids_requested IsoDate.parse 1736937005000
           [promptEntry; twoCallsEntry; resultEntry] "toolu_02").
  vm_compute. apply list_elem_of_here.
Defined.

Lemma partial_tool_results_witness :
  fst (replay [promptEntry; twoCallsEntry; resultEntry] createActor) = working.
Proof.
  apply (partial_tool_results [promptEntry]
           {| lastActivityAt := t_prompt; messageCount := 1;
              hasPendingToolUse := false; pendingToolIds := [] |}
           t_call
           [AToolUseBlock "toolu_01" "Bash"; AToolUseBlock "toolu_02" "Edit";
            AToolUseBlock "toolu_03" "Read"]
           t_result [UToolResultBlock "toolu_01" "ok"]).
  - reflexivity.
  - vm_compute. discriminate.
  - vm_compute. discriminate.
Defined.

Lemma turn_end_settles_witness :
  Types.status
    (Status.deriveStatus IsoDate.parse 1736937005000
       ([promptEntry; callEntry] ++ [SystemEntry "stop_hook_summary" t_result])%list)
  = st_waiting.
Proof.
  apply (turn_end_settles IsoDate.parse 1736937005000 [promptEntry; callEntry]).
  right. reflexivity.
Defined.

Lemma unchanged_same_key_witness :
  Status.getStatusKey (Status.deriveStatus IsoDate.parse 1736937001000 [promptEntry])
  = Status.getStatusKey (Status.deriveStatus IsoDate.parse 1736937005000 [promptEntry; resultEntry]).
Proof.
  apply (unchanged_same_key
           (Status.deriveStatus IsoDate.parse 1736937001000 [promptEntry])
           (Status.deriveStatus IsoDate.parse 1736937005000 [promptEntry; resultEntry])).
  reflexivity.
Defined.

End ReplayFacts.

(* ===================================================================== *)
(** * Signal file names *)
(* ===================================================================== *)

Module SignalFilesFacts.
Import Watcher SignalFiles.

Lemma to_list_app a b :
  list_ascii_of_string (a ++ b) = (list_ascii_of_string a ++ list_ascii_of_string b)%list.
Proof. induction a as [|c a IH]; [reflexivity|]. simpl. by rewrite IH. Qed.

Lemma length_app a b : String.length (a ++ b) = (String.length a + String.length b)%nat.
Proof. induction a as [|c a IH]; [reflexivity|]. simpl. by rewrite IH. Qed.

Lemma split_String sep c rest :
  split sep (String c rest)
  = if Ascii.eqb c sep then EmptyString :: split sep rest
    else match split sep rest with
         | head :: tail => String c head :: tail
         | [] => [String c EmptyString]
         end.
Proof. reflexivity. Qed.

Lemma split_nonempty sep s : split sep s <> [].
Proof.
  destruct s as [|c r]; [discriminate|]. rewrite split_String.
  destruct (Ascii.eqb c sep); [discriminate|].
  destruct (split sep r); discriminate.
Qed.

Lemma split_without sep s :
  ~ In sep (list_ascii_of_string s) -> split sep s = [s].
Proof.
  induction s as [|c r IH]; intros Hno; [reflexivity|].
  rewrite split_String. simpl in Hno.
  destruct (Ascii.eqb_spec c sep) as [->|Hne].
  - exfalso. apply Hno. by left.
  - rewrite IH; [reflexivity|]. intros Hin. apply Hno. by right.
Qed.

Lemma split_after sep d name :
  exists x y l, split sep (d ++ String sep name) = x :: y :: l
                /\ last (y :: l) = last (split sep name).
Proof.
  induction d as [|c d (x & y & l & Heq & Hlast)].
  - change ("" ++ String sep name) with (String sep name).
    rewrite split_String, Ascii.eqb_refl.
    destruct (split sep name) as [|y l] eqn:E; [by apply split_nonempty in E|].
    by exists "", y, l.
  - change (String c d ++ String sep name) with (String c (d ++ String sep name)).
    rewrite split_String. destruct (Ascii.eqb c sep).
    + exists "", x, (y :: l). split; [by rewrite Heq|].
      rewrite <- Hlast. reflexivity.
    + rewrite Heq. by exists (String c x), y, l.
Qed.

Lemma fileName_of_path dir name :
  ~ In "/"%char (list_ascii_of_string name) ->
  fileName (dir ++ "/" ++ name) = name.
Proof.
  intros Hno. unfold fileName.
  change (dir ++ "/" ++ name) with (dir ++ String "/" name).
  destruct (split_after "/" dir name) as (x & y & l & -> & Hlast).
  change (last (x :: y :: l)) with (last (y :: l)).
  by rewrite Hlast, (split_without _ _ Hno).
Qed.

Lemma stripSuffix_eq suffix s :
  stripSuffix suffix s
  = if String.eqb s suffix then Some EmptyString
    else match s with
         | EmptyString => None
         | String c rest => option_map (String c) (stripSuffix suffix rest)
         end.
Proof. destruct s; reflexivity. Qed.

Lemma stripSuffix_app suffix p : stripSuffix suffix (p ++ suffix) = Some p.
Proof.
  induction p as [|c p IH].
  - change ("" ++ suffix) with suffix. by rewrite stripSuffix_eq, String.eqb_refl.
  - assert (String.eqb (String c p ++ suffix) suffix = false) as Hne.
    { apply String.eqb_neq. intros E. apply (f_equal String.length) in E.
      rewrite length_app in E. simpl in E. lia. }
    rewrite stripSuffix_eq, Hne.
    change (String c p ++ suffix) with (String c (p ++ suffix)).
    cbv beta iota. by rewrite IH.
Qed.

Lemma stripSuffix_sound suffix s p :
  stripSuffix suffix s = Some p -> s = p ++ suffix.
Proof.
  revert p. induction s as [|c s IH]; intros p; rewrite stripSuffix_eq.
  - destruct (String.eqb_spec "" suffix) as [<-|Hne]; [|discriminate].
    by intros [= <-].
  - destruct (String.eqb_spec (String c s) suffix) as [<-|Hne].
    + by intros [= <-].
    + destruct (stripSuffix suffix s) as [q|]; [|discriminate].
      intros [= <-]. simpl. by rewrite (IH q eq_refl).
Qed.

(** Names that end with the suffix of one kind do not end with that of
    another. *)
Lemma suffix_clash a b k k' :
  k <> k' ->
  a ++ "." ++ kindName k ++ ".json" <> b ++ "." ++ kindName k' ++ ".json".
Proof.
  intros Hk E.
  apply (f_equal (fun s => rev (list_ascii_of_string s))) in E.
  rewrite !to_list_app, !rev_app_distr in E.
  destruct k, k'; try contradiction; cbn in E; discriminate E.
Qed.

Lemma matchKind_other sid k k' :
  k <> k' -> matchKind (signalFileName sid k) k' = None.
Proof.
  intros Hk. unfold matchKind, signalFileName.
  destruct (stripSuffix _ _) as [p|] eqn:E; [|reflexivity].
  apply stripSuffix_sound in E. by apply suffix_clash in E.
Qed.

Lemma matchKind_same sid k :
  matchKind (signalFileName sid k) k
  = if negb (String.eqb sid "") && negb (hasLineTerminator sid)
    then Some (sid, k) else None.
Proof. unfold matchKind, signalFileName. by rewrite stripSuffix_app. Qed.

Lemma matchKind_sound filename k sid k' :
  matchKind filename k = Some (sid, k') ->
  k' = k /\ filename = signalFileName sid k
  /\ sid <> "" /\ hasLineTerminator sid = false.
Proof.
  unfold matchKind. destruct (stripSuffix _ filename) as [p|] eqn:E; [|discriminate].
  destruct (String.eqb_spec p "") as [->|Hne]; cbn; [discriminate|].
  destruct (hasLineTerminator p) eqn:Hl; cbn; [discriminate|].
  intros [= <- <-]. apply stripSuffix_sound in E. by repeat split.
Qed.

Lemma name_without_slash sid k :
  ~ In "/"%char (list_ascii_of_string sid) ->
  ~ In "/"%char (list_ascii_of_string (signalFileName sid k)).
Proof.
  intros Hno. unfold signalFileName. rewrite to_list_app, in_app_iff.
  intros [H|H]; [by apply Hno|].
  destruct k; cbn in H; repeat (destruct H as [H|H]; [discriminate H|]); exact H.
Qed.

(** X14. Signal file names round-trip: the path of the file
    [<id>.<kind>.json] in any directory parses back to that id and kind,
    provided the id is non-empty and has no [/] and no line terminator; what
    the parser accepts is always of that form; and a name with an empty id
    is rejected. *)
Theorem parseSignalFilename_roundtrip :
  (forall dir sid k,
      sid <> "" ->
      ~ In "/"%char (list_ascii_of_string sid) ->
      hasLineTerminator sid = false ->
      parseSignalFilename (dir ++ "/" ++ signalFileName sid k) = Some (sid, k))
  /\ (forall path sid k,
        parseSignalFilename path = Some (sid, k) ->
        fileName path = signalFileName sid k
        /\ sid <> "" /\ hasLineTerminator sid = false)
  /\ (forall dir k, parseSignalFilename (dir ++ "/" ++ signalFileName "" k) = None).
Proof.
  split; [|split].
  - intros dir sid k Hne Hslash Hterm. unfold parseSignalFilename.
    rewrite (fileName_of_path dir _ (name_without_slash sid k Hslash)).
    assert (matchKind (signalFileName sid k) k = Some (sid, k)) as Hsame.
    { rewrite matchKind_same, Hterm.
      by destruct (String.eqb_spec sid "") as [->|_]. }
    destruct k; rewrite ?Hsame; rewrite ?matchKind_other by discriminate;
      rewrite ?Hsame; reflexivity.
  - intros path sid k. unfold parseSignalFilename.
    destruct (matchKind (fileName path) Permission) as [[i j]|] eqn:E1.
    { intros [= -> ->]. apply matchKind_sound in E1 as (-> & H). exact H. }
    destruct (matchKind (fileName path) Stop) as [[i j]|] eqn:E2.
    { intros [= -> ->]. apply matchKind_sound in E2 as (-> & H). exact H. }
    intros E3. apply matchKind_sound in E3 as (-> & H). exact H.
  - intros dir k. unfold parseSignalFilename.
    rewrite (fileName_of_path dir (signalFileName "" k)).
    + destruct k; reflexivity.
    + apply name_without_slash. cbn. tauto.
Qed.

Lemma parseSignalFilename_roundtrip_witness :
  parseSignalFilename (MoreExamples.signalsDir ++ "/" ++ signalFileName "7f3c2a" Stop)
  = Some ("7f3c2a", Stop).
Proof.
  apply (proj1 parseSignalFilename_roundtrip MoreExamples.signalsDir "7f3c2a" Stop).
  - discriminate.
  - cbn. intros H. repeat (destruct H as [H|H]; [discriminate H|]). exact H.
  - reflexivity.
Defined.

End SignalFilesFacts.

Module WatcherRestFacts.
Import Types Watcher WatcherRest SignalFiles.
Import WatcherFacts.

(** Case analysis on a lookup in a map after updates at [sid]. *)
Ltac split_key sid' sid :=
  destruct (decide (sid' = sid)) as [->|?];
  [ rewrite ?lookup_insert_eq, ?lookup_delete_eq in *
  | rewrite ?lookup_insert_ne, ?lookup_delete_ne in * by congruence ].





Section WithEnvironment.
Variable parseDate : string -> option Z.
Variable extractSessionId : string -> string.
Variable extractEncodedDir : string -> string.
Variable extractMetadata : list LogEntry -> option SessionMetadata.





(** The two checks on the new entries touch the signals of [sid] only. *)
Lemma clearResolvedSignals_other w sid newEntries sid' :
  sid' <> sid ->
  pendingPermissions (clearResolvedSignals w sid newEntries) !! sid'
  = pendingPermissions w !! sid'
  /\ stopSignals (clearResolvedSignals w sid newEntries) !! sid'
     = stopSignals w !! sid'.
Proof.
  intros Hne. unfold clearResolvedSignals, clearStopSignal, clearPendingPermission.
  repeat match goal with
         | |- context [if ?b then _ else _] => destruct b
         | |- context [match ?o with Some _ => _ | None => _ end] => destruct o
         end;
    cbn [withSignals pendingPermissions stopSignals];
    rewrite ?lookup_delete_ne by congruence; by split.
Qed.

Lemma clearResolvedSignals_ended w sid newEntries :
  endedSignals (clearResolvedSignals w sid newEntries) = endedSignals w.
Proof.
  unfold clearResolvedSignals, clearStopSignal, clearPendingPermission.
  repeat match goal with
         | |- context [if ?b then _ else _] => destruct b
         | |- context [match ?o with Some _ => _ | None => _ end] => destruct o
         end; reflexivity.
Qed.







End WithEnvironment.



(** The two checks on the new entries only ever drop signals. *)
Lemma clearResolvedSignals_keeps w sid newEntries :
  (forall p, pendingPermissions (clearResolvedSignals w sid newEntries) !! sid = Some p ->
             pendingPermissions w !! sid = Some p)
  /\ (forall x, stopSignals (clearResolvedSignals w sid newEntries) !! sid = Some x ->
                stopSignals w !! sid = Some x).
Proof.
  unfold clearResolvedSignals. split.
  - intros p.
    destruct (existsb isUserPromptEntry newEntries && _);
      rewrite ?clearStopSignal_permissions;
      (destruct (existsb isToolResultEntry newEntries && _); [|tauto]);
      rewrite clearPendingPermission_cleared; discriminate.
  - intros x.
    destruct (existsb isUserPromptEntry newEntries && _).
    + rewrite clearStopSignal_cleared. discriminate.
    + destruct (existsb isToolResultEntry newEntries && _); [|tauto].
      by rewrite clearPendingPermission_stops.
Qed.

Section WithEnvironment2.
Variable parseDate : string -> option Z.
Variable extractSessionId : string -> string.
Variable extractEncodedDir : string -> string.
Variable extractMetadata : list LogEntry -> option SessionMetadata.

Lemma no_tool_result_keeps_permission w sid newEntries :
  existsb isToolResultEntry newEntries = false ->
  pendingPermissions (clearResolvedSignals w sid newEntries)
  = pendingPermissions w.
Proof.
  intros H. unfold clearResolvedSignals. rewrite H. cbn [andb].
  destruct (_ && _); [apply clearStopSignal_permissions | reflexivity].
Qed.

(** X17. A permission signal that arrived before its session was tracked
    is applied when the session appears: the pass that creates the session,
    if its entries hold no tool result, stores it as waiting with the
    pending flag set, keeps the signal, and emits one [created] event that
    carries the stored session. *)
Theorem early_permission_applied w path newEntries newPosition git now p md :
  let sid := extractSessionId path in
  let w' := handleFile parseDate extractSessionId extractEncodedDir extractMetadata
              w path (TailOk newEntries newPosition) git now in
  sessions w !! sid = None ->
  pendingPermissions w !! sid = Some p ->
  extractMetadata newEntries = Some md ->
  existsb isToolResultEntry newEntries = false ->
  pendingPermissions w' !! sid = Some p
  /\ exists s',
      sessions w' !! sid = Some s'
      /\ status s'
         = overrideStatus (Status.deriveStatus parseDate now newEntries) st_waiting true
      /\ pendingPermission s' = Some p
      /\ entries s' = newEntries
      /\ last (effects w')
         = Some (EmitSession {| type := created; session := s';
                                previousStatus := None |}).
Proof.
  intros sid w' Hnew Hp Hmd Hno. subst w'. unfold handleFile. fold sid.
  rewrite Hnew, Hmd.
  assert (bool_decide (is_Some (@None SessionState)) = false) as ->
    by (apply bool_decide_eq_false_2; intros [? ?]; discriminate).
  rewrite andb_false_r.
  cbn [sessions pendingPermissions effects].
  rewrite (no_tool_result_keeps_permission w sid newEntries Hno), Hp.
  split; [reflexivity|].
  eexists. split; [apply lookup_insert_eq|].
  cbn [status pendingPermission entries].
  repeat split. apply last_snoc.
Qed.

(** X18. Removing a permission signal undoes its override: when the
    permission file of a tracked session is processed and later removed,
    the signal is no longer held and the session's status is the one derived
    from its entries at the time of the removal, its entries and other
    signal flags being untouched.  A removal for a session that holds no
    permission leaves the session map as it is. *)
Theorem permission_removal_restores w path sid now s :
  parseSignalFilename path = Some (sid, Permission) ->
  sessions w !! sid = Some s ->
  (forall perm,
      let w1 := handleSignalFile w (Some (PermissionFile sid (Some perm))) in
      let w2 := handleSignalRemoved parseDate w1 path now in
      pendingPermissions w2 !! sid = None
      /\ exists s2,
          sessions w2 !! sid = Some s2
          /\ status s2 = Status.deriveStatus parseDate now (entries s)
          /\ pendingPermission s2 = None
          /\ entries s2 = entries s
          /\ hasStopSignal s2 = hasStopSignal s
          /\ hasEndedSignal s2 = hasEndedSignal s)
  /\ (pendingPermission s = None ->
      sessions (handleSignalRemoved parseDate w path now) = sessions w
      /\ effects (handleSignalRemoved parseDate w path now) = effects w).
Proof.
  intros Hparse Hs. split.
  - intros perm w1 w2. subst w2 w1. unfold handleSignalRemoved. rewrite Hparse.
    cbn [handleSignalFile]. rewrite Hs.
    cbn [sessions pendingPermissions stopSignals endedSignals effects].
    rewrite lookup_insert_eq.
    cbn [assignSignalFields pendingPermission withSessions sessions pendingPermissions].
    rewrite lookup_delete_eq. split; [reflexivity|].
    eexists. split; [apply lookup_insert_eq|]. by repeat split.
  - intros Hnone. unfold handleSignalRemoved. rewrite Hparse, Hs, Hnone.
    by split.
Qed.

(** X19. A pass of the change handler is local and only appends: whatever
    the outcome of the read, sessions and held signals of other session ids
    are untouched, no ended signal changes, no permission or stop signal is
    added, a tracked session stays tracked, and its stored entries extend
    the ones it had. *)
Theorem handleFile_local w path read git now :
  let sid := extractSessionId path in
  let w' := handleFile parseDate extractSessionId extractEncodedDir extractMetadata
              w path read git now in
  (forall sid', sid' <> sid ->
      sessions w' !! sid' = sessions w !! sid'
      /\ pendingPermissions w' !! sid' = pendingPermissions w !! sid'
      /\ stopSignals w' !! sid' = stopSignals w !! sid')
  /\ endedSignals w' = endedSignals w
  /\ (forall p, pendingPermissions w' !! sid = Some p ->
                pendingPermissions w !! sid = Some p)
  /\ (forall x, stopSignals w' !! sid = Some x -> stopSignals w !! sid = Some x)
  /\ (forall s, sessions w !! sid = Some s ->
        exists s' added,
          sessions w' !! sid = Some s'
          /\ entries s' = (entries s ++ added)%list).
Proof.
  intros sid w'. subst w'. unfold handleFile. fold sid.
  destruct read as [newEntries newPosition|code].
  - destruct (Z.of_nat (length newEntries) =? 0) eqn:Hlen;
      destruct (sessions w !! sid) as [s0|] eqn:Es;
      cbn [andb];
      rewrite ?(bool_decide_eq_true_2 (is_Some (Some s0))) by eauto;
      rewrite ?(bool_decide_eq_false_2 (is_Some (@None SessionState)))
        by (intros [? ?]; discriminate);
      cbv iota.
    + (* nothing new for a tracked session *)
      repeat split; try tauto.
      intros s [= <-]. exists s0, []. by rewrite app_nil_r.
    + (* nothing read, session not tracked *)
      destruct (extractMetadata newEntries) as [md|]; [|by repeat split].
      cbn [sessions pendingPermissions stopSignals endedSignals].
      rewrite clearResolvedSignals_sessions, clearResolvedSignals_ended.
      split; [|split; [reflexivity|split; [|split; [|discriminate]]]].
      * intros sid' Hne. rewrite lookup_insert_ne by congruence.
        destruct (clearResolvedSignals_other w sid newEntries sid' Hne). by repeat split.
      * apply (clearResolvedSignals_keeps w sid newEntries).
      * apply (clearResolvedSignals_keeps w sid newEntries).
    + cbn [sessions pendingPermissions stopSignals endedSignals].
      rewrite clearResolvedSignals_sessions, clearResolvedSignals_ended.
      split; [|split; [reflexivity|split; [|split]]].
      * intros sid' Hne. rewrite lookup_insert_ne by congruence.
        destruct (clearResolvedSignals_other w sid newEntries sid' Hne). by repeat split.
      * apply (clearResolvedSignals_keeps w sid newEntries).
      * apply (clearResolvedSignals_keeps w sid newEntries).
      * intros s [= <-]. eexists _, newEntries.
        split; [apply lookup_insert_eq | reflexivity].
    + destruct (extractMetadata newEntries) as [md|]; [|by repeat split].
      cbn [sessions pendingPermissions stopSignals endedSignals].
      rewrite clearResolvedSignals_sessions, clearResolvedSignals_ended.
      split; [|split; [reflexivity|split; [|split; [|discriminate]]]].
      * intros sid' Hne. rewrite lookup_insert_ne by congruence.
        destruct (clearResolvedSignals_other w sid newEntries sid' Hne). by repeat split.
      * apply (clearResolvedSignals_keeps w sid newEntries).
      * apply (clearResolvedSignals_keeps w sid newEntries).
  - assert (forall s : SessionState, sessions w !! sid = Some s ->
              exists s' added, sessions w !! sid = Some s'
                               /\ entries s' = (entries s ++ added)%list) as Hsame.
    { intros s Hs. exists s, []. by rewrite app_nil_r. }
    destruct (String.eqb code "ENOENT"); by repeat split.
Qed.

(** X20. The sweep brings a working session up to date.  For a tracked
    session stored as working with a log-derived status, one visit of the
    sweep leaves it with the status derived from its entries at the visit;
    if that status is still working the watcher is unchanged and nothing is
    emitted, otherwise the session is stored as waiting and one [updated]
    event carries the previous status. *)
Theorem sweep_updates_working w sid now s :
  sessions w !! sid = Some s ->
  Types.status (status s) = st_working ->
  logDerived parseDate s ->
  let derived := Status.deriveStatus parseDate now (entries s) in
  let w' := checkStaleSession parseDate w (sid, now) in
  (exists s', sessions w' !! sid = Some s'
              /\ status s' = derived /\ entries s' = entries s)
  /\ (Types.status derived = st_working -> w' = w)
  /\ (Types.status derived <> st_working ->
      Types.status derived = st_waiting
      /\ exists s', sessions w' !! sid = Some s'
                    /\ effects w'
                       = (effects w ++
                          [EmitSession {| type := updated; session := s';
                                          previousStatus := Some (status s) |}])%list).
Proof.
  intros Hs Hwork (t & Ht) derived w'. subst w'. unfold checkStaleSession.
  cbn [fst snd]. rewrite Hs, Hwork. cbn [SessionStatus_eqb negb]. fold derived.
  destruct (Status.statusChanged (Some (status s)) derived) eqn:Hc.
  - cbn [withSessions sessions effects].
    split; [eexists; split; [apply lookup_insert_eq | by split]|].
    split.
    + intros Hd. exfalso.
      assert (derived = status s) as Heq.
      { rewrite Ht. apply ReplayFacts.working_status_stable; [by rewrite <- Ht | exact Hd]. }
      rewrite Heq in Hc.
      assert (Status.statusChanged (Some (status s)) (status s) = false) as Hrefl
        by (by apply ReplayFacts.statusChanged_false).
      congruence.
    + intros Hd. split.
      * destruct (ReplayFacts.derived_working_or_waiting parseDate now (entries s));
          [contradiction | assumption].
      * eexists. split; [apply lookup_insert_eq | reflexivity].
  - apply ReplayFacts.statusChanged_false in Hc as (Hst & _ & _).
    assert (Types.status derived = st_working) as Hd by congruence.
    assert (derived = status s) as Heq.
    { rewrite Ht. apply ReplayFacts.working_status_stable; [by rewrite <- Ht | exact Hd]. }
    split; [exists s; by rewrite Heq|]. split; [reflexivity|].
    intros Hne. contradiction.
Qed.

Lemma handleSignalFile_derived w parsed :
  workingIsDerived parseDate w -> workingIsDerived parseDate (handleSignalFile w parsed).
Proof.
  intros Hw.
  destruct parsed as [[sid [d|]|sid [d|]|sid [d|]]|]; cbn [handleSignalFile];
    try exact Hw;
    destruct (sessions w !! sid) as [s0|] eqn:Es;
    intros sid' s' Hs' Hst;
    cbn [sessions pendingPermissions stopSignals endedSignals] in *;
    split_key sid' sid;
    first [ exact (Hw _ _ Hs' Hst) | congruence
          | injection Hs' as <-; cbn in Hst; discriminate Hst ].
Qed.

Lemma handleSignalRemoved_derived w path now :
  workingIsDerived parseDate w ->
  workingIsDerived parseDate (handleSignalRemoved parseDate w path now).
Proof.
  intros Hw. unfold handleSignalRemoved.
  destruct (parseSignalFilename path) as [[sid [| |]]|]; [| | |exact Hw];
    destruct (sessions w !! sid) as [s0|] eqn:Es;
    try (destruct (pendingPermission s0) as [p0|] eqn:Ep);
    intros sid' s' Hs' Hst;
    cbn [withSessions sessions pendingPermissions stopSignals endedSignals] in *;
    split_key sid' sid;
    first [ exact (Hw _ _ Hs' Hst) | congruence
          | injection Hs' as <-; cbn in *; by exists now
          | injection Hs' as <-; cbn in *; exact (Hw _ _ Es Hst) ].
Qed.

Lemma handleDelete_derived w path :
  workingIsDerived parseDate w ->
  workingIsDerived parseDate (handleDelete extractSessionId w path).
Proof.
  intros Hw. unfold handleDelete.
  destruct (sessions w !! extractSessionId path) as [s0|] eqn:Es; [|exact Hw].
  intros sid' s' Hs' Hst. cbn [withSessions sessions] in *.
  split_key sid' (extractSessionId path); [discriminate|]. exact (Hw _ _ Hs' Hst).
Qed.

Lemma checkStaleSessions_derived visits w :
  workingIsDerived parseDate w ->
  workingIsDerived parseDate (checkStaleSessions parseDate w visits).
Proof.
  unfold checkStaleSessions. revert w.
  induction visits as [|[sid now] vs IH]; intros w Hw; [exact Hw|].
  cbn [fold_left]. apply IH. unfold checkStaleSession. cbn [fst snd].
  destruct (sessions w !! sid) as [s0|] eqn:Es; [|exact Hw].
  destruct (negb _); [exact Hw|].
  destruct (Status.statusChanged _ _); [|exact Hw].
  intros sid' s' Hs' Hst. cbn [withSessions sessions] in *.
  split_key sid' sid; [|exact (Hw _ _ Hs' Hst)].
  injection Hs' as <-. cbn in *. by exists now.
Qed.

Lemma handleFile_derived w path read git now :
  workingIsDerived parseDate w ->
  workingIsDerived parseDate
    (handleFile parseDate extractSessionId extractEncodedDir extractMetadata
       w path read git now).
Proof.
  intros Hw. unfold handleFile.
  destruct read as [newEntries newPosition|code].
  - destruct (_ && _); [exact Hw|].
    destruct (match sessions w !! extractSessionId path with
              | Some s => _ | None => _ end) as [md|]; [|exact Hw].
    intros sid' s' Hs' Hst. cbn [sessions] in *.
    rewrite clearResolvedSignals_sessions in Hs'.
    split_key sid' (extractSessionId path); [|exact (Hw _ _ Hs' Hst)].
    injection Hs' as <-. cbn [status entries] in *.
    destruct (pendingPermissions _ !! _); [discriminate Hst|]. by exists now.
  - destruct (String.eqb code "ENOENT"); exact Hw.
Qed.

(** X21. Signals never produce a working status: in every watcher state
    reached from the empty one by the handlers and the sweep, a session
    stored as working has the status that [deriveStatus] gives for its
    stored entries at some instant. *)
Theorem working_is_log_derived :
  workingIsDerived parseDate Watcher.empty
  /\ (forall w parsed,
        workingIsDerived parseDate w ->
        workingIsDerived parseDate (handleSignalFile w parsed))
  /\ (forall w path now,
        workingIsDerived parseDate w ->
        workingIsDerived parseDate (handleSignalRemoved parseDate w path now))
  /\ (forall w path read git now,
        workingIsDerived parseDate w ->
        workingIsDerived parseDate
          (handleFile parseDate extractSessionId extractEncodedDir extractMetadata
             w path read git now))
  /\ (forall w path,
        workingIsDerived parseDate w ->
        workingIsDerived parseDate (handleDelete extractSessionId w path))
  /\ (forall w visits,
        workingIsDerived parseDate w ->
        workingIsDerived parseDate (checkStaleSessions parseDate w visits)).
Proof.
  split; [intros sid s Hs; cbn in Hs; by rewrite lookup_empty in Hs|].
  split; [apply handleSignalFile_derived|].
  split; [apply handleSignalRemoved_derived|].
  split; [apply handleFile_derived|].
  split; [apply handleDelete_derived|].
  intros w visits. apply checkStaleSessions_derived.
Qed.

End WithEnvironment2.

(** X22. Processing a signal file a second time, as happens when the file
    is rewritten, changes neither the session map nor the signal maps. *)
Theorem handleSignalFile_idempotent w parsed :
  let w1 := handleSignalFile w parsed in
  let w2 := handleSignalFile w1 parsed in
  sessions w2 = sessions w1
  /\ pendingPermissions w2 = pendingPermissions w1
  /\ stopSignals w2 = stopSignals w1
  /\ endedSignals w2 = endedSignals w1.
Proof.
  intros w1 w2. subst w2 w1.
  destruct parsed as [[sid [d|]|sid [d|]|sid [d|]]|]; cbn [handleSignalFile];
    try (by repeat split);
    destruct (sessions w !! sid) as [s0|] eqn:Es;
    cbn [sessions pendingPermissions stopSignals endedSignals];
    rewrite ?lookup_insert_eq, ?Es;
    cbn [sessions pendingPermissions stopSignals endedSignals];
    rewrite ?insert_insert_eq, ?delete_delete_eq; by repeat split.
Qed.

(** *** Instances *)

Import Examples MoreExamples.



Lemma early_permission_applied_witness :
  pendingPermissions
    (handleFile IsoDate.parse sessionIdOf encodedDirOf metadataOf
       beforeFirstRead logPath (TailOk [promptEntry; callEntry] 512) gitMain 1736937002000)
    !! "7f3c2a" = Some heldPermission.
Proof.
  apply (early_permission_applied IsoDate.parse sessionIdOf encodedDirOf metadataOf
           beforeFirstRead logPath [promptEntry; callEntry] 512 gitMain 1736937002000
           heldPermission
           {| md_sessionId := "7f3c2a"; md_cwd := "/Users/test/project";
              md_gitBranch := Some "main"; md_originalPrompt := "run the tests";
              md_startedAt := t_prompt |});
    reflexivity.
Defined.

Lemma permission_removal_restores_witness :
  sessions (handleSignalRemoved IsoDate.parse quiet permissionPath 1736937003000)
  = sessions quiet.
Proof.
  apply (permission_removal_restores IsoDate.parse quiet permissionPath "7f3c2a"
           1736937003000 workingSession); reflexivity.
Defined.

Lemma handleFile_local_witness :
  exists s' added,
    sessions (handleFile IsoDate.parse sessionIdOf encodedDirOf metadataOf
                quiet logPath (TailOk [resultEntry] 768) gitMain 1736937005000)
      !! sessionIdOf logPath = Some s'
    /\ entries s' = (entries workingSession ++ added)%list.
Proof.
  apply (handleFile_local IsoDate.parse sessionIdOf encodedDirOf metadataOf
           quiet logPath (TailOk [resultEntry] 768) gitMain 1736937005000).
  reflexivity.
Defined.

Lemma sweep_updates_working_witness :
  exists s',
    sessions (checkStaleSession IsoDate.parse quiet ("7f3c2a", 1736937017001))
      !! "7f3c2a" = Some s'
    /\ status s' = Status.deriveStatus IsoDate.parse 1736937017001 (entries workingSession)
    /\ entries s' = entries workingSession.
Proof.
  apply (sweep_updates_working IsoDate.parse quiet "7f3c2a" 1736937017001 workingSession).
  - reflexivity.
  - reflexivity.
  - exists 1736937002000. reflexivity.
Defined.

Lemma working_is_log_derived_witness :
  workingIsDerived IsoDate.parse
    (handleDelete sessionIdOf
       (handleFile IsoDate.parse sessionIdOf encodedDirOf metadataOf
          Watcher.empty logPath (TailOk [promptEntry] 256) gitMain 1736937001000)
       logPath).
Proof.
  apply (working_is_log_derived IsoDate.parse sessionIdOf encodedDirOf metadataOf).
  apply (working_is_log_derived IsoDate.parse sessionIdOf encodedDirOf metadataOf).
  intros sid s Hs. cbn in Hs. rewrite lookup_empty in Hs. discriminate.
Defined.

End WatcherRestFacts.
